(** * The flat-file session store of flow

    A shallow embedding of
    [internal/infra/filesystem/session_fs_repository.go]: the file-name
    codec, the directory listing with its name-level filters, and the
    store operations built on them, with the start use case on top.
    The library calls of the source are modelled under the names of
    their Go packages ([strings], [strconv], [time], [sort], [os_...],
    [json_...]); the repository's own functions keep their names.
    A store operation is a function of the state of the flow folder
    that ends with a value or with the exit of the process. *)

From Stdlib Require Import ZArith List String Ascii Bool Lia Permutation Sorted.
Import ListNotations.

Local Open Scope string_scope.
Local Open Scope Z_scope.
Local Open Scope list_scope.

Local Infix "+++" := String.append (right associativity, at level 60).

(** ** Errors

    Go's [error] values that the store creates or passes on. *)

Inductive numErr := ErrSyntax | ErrRange.

Inductive error :=
| errors_New (msg : string)                       (* errors.New(msg) *)
| NumError (func num : string) (err : numErr)     (* *strconv.NumError *)
| PathError (op path : string) (msg : string).    (* *fs.PathError *)

(** ** Package strings *)

Module strings.

(** [strings.Split(s, sep)] for a one-byte separator, which is how the
    store calls it: the pieces of [s] between the occurrences of [sep],
    one more than there are occurrences. *)
Fixpoint Split (s : string) (sep : ascii) : list string :=
  match s with
  | EmptyString => [EmptyString]
  | String c r =>
      if Ascii.eqb c sep then EmptyString :: Split r sep
      else match Split r sep with
           | h :: t => String c h :: t
           | [] => [String c EmptyString]
           end
  end.

Definition HasSuffix (s suffix : string) : bool :=
  (String.length suffix <=? String.length s)%nat &&
  String.eqb (substring (String.length s - String.length suffix)
                        (String.length suffix) s) suffix.

Definition TrimSuffix (s suffix : string) : string :=
  if HasSuffix s suffix
  then substring 0 (String.length s - String.length suffix) s
  else s.

(** Number of occurrences of a byte, [strings.Count] for a one-byte
    pattern. *)
Fixpoint Count (s : string) (c : ascii) : nat :=
  match s with
  | EmptyString => 0
  | String a r => (if Ascii.eqb a c then 1 else 0) + Count r c
  end.

Definition ContainsByte (s : string) (c : ascii) : bool :=
  negb (Nat.eqb (Count s c) 0).

End strings.

(** ** Package strconv *)

Module strconv.

Definition digit (d : Z) : ascii := ascii_of_nat (48 + Z.to_nat d).

Definition isDigit (c : ascii) : bool :=
  let n := nat_of_ascii c in ((48 <=? n) && (n <=? 57))%nat.

Definition digitVal (c : ascii) : Z := Z.of_nat (nat_of_ascii c) - 48.

(** The loop of [formatBits] in base 10: the last digit is peeled off
    while at least two digits remain.  Twenty rounds cover every
    [uint64]. *)
Fixpoint formatBits (fuel : nat) (u : Z) (acc : string) : string :=
  match fuel with
  | O => acc
  | S fuel' =>
      if 10 <=? u
      then formatBits fuel' (u / 10) (String (digit (u mod 10)) acc)
      else String (digit u) acc
  end.

(** [strconv.FormatInt(i, 10)]. *)
Definition FormatInt (i : Z) : string :=
  if i <? 0 then String "-"%char (formatBits 20 (- i) EmptyString)
  else formatBits 20 i EmptyString.

Definition maxUint64 : Z := 2 ^ 64 - 1.

(** The digit loop of [ParseUint(s, 10, 64)]: a byte that is no digit is
    a syntax error, a value beyond [uint64] a range error. *)
Fixpoint parseDigits (s : string) (n : Z) : numErr + Z :=
  match s with
  | EmptyString => inr n
  | String c r =>
      if isDigit c then
        if maxUint64 / 10 + 1 <=? n then inl ErrRange
        else
          let n1 := n * 10 + digitVal c in
          if maxUint64 <? n1 then inl ErrRange else parseDigits r n1
      else inl ErrSyntax
  end.

Definition ParseUint (s : string) : numErr + Z :=
  match s with
  | EmptyString => inl ErrSyntax
  | _ => parseDigits s 0
  end.

(** [strconv.ParseInt(s, 10, 64)]. *)
Definition ParseInt (s : string) : error + Z :=
  match s with
  | EmptyString => inl (NumError "ParseInt" s ErrSyntax)
  | String c r =>
      let neg := Ascii.eqb c "-"%char in
      let body := if Ascii.eqb c "+"%char || neg then r else s in
      match ParseUint body with
      | inl ErrSyntax => inl (NumError "ParseInt" s ErrSyntax)
      | inl ErrRange => inl (NumError "ParseInt" s ErrRange)
      | inr un =>
          if negb neg && (2 ^ 63 <=? un) then inl (NumError "ParseInt" s ErrRange)
          else if neg && (2 ^ 63 <? un) then inl (NumError "ParseInt" s ErrRange)
          else inr (if neg then - un else un)
      end
  end.

End strconv.

(** ** Package time

    A [time.Time] without monotonic reading, in UTC: the seconds since
    January 1 of year 1, an [int64], and the nanoseconds within the
    second. *)

Module time.

Record Time := mkTime { sec : Z; nsec : Z }.

Definition int64 (z : Z) : Z := (z + 2 ^ 63) mod 2 ^ 64 - 2 ^ 63.

Definition unixToInternal : Z := 62135596800.

(** [time.Unix(sec, nsec)], with its normalisation of [nsec]. *)
Definition Unix (s ns : Z) : Time :=
  let '(s, ns) :=
    if (ns <? 0) || (1000000000 <=? ns) then
      let n := Z.quot ns 1000000000 in
      let s := int64 (s + n) in
      let ns := ns - n * 1000000000 in
      if ns <? 0 then (int64 (s - 1), ns + 1000000000) else (s, ns)
    else (s, ns) in
  mkTime (int64 (s + unixToInternal)) ns.

(** The method [t.Unix()]. *)
Definition Time_Unix (t : Time) : Z := int64 (sec t - unixToInternal).

Definition Before (t u : Time) : bool :=
  (sec t <? sec u) || ((sec t =? sec u) && (nsec t <? nsec u)).

Definition After (t u : Time) : bool :=
  (sec u <? sec t) || ((sec t =? sec u) && (nsec u <? nsec t)).

End time.

(** ** The file-name codec *)

Record SessionFilename := mkSessionFilename {
  fn_StartTime : time.Time;
  fn_Id : string;
  fn_Project : string
}.

Definition alnum (c : ascii) : bool :=
  let n := nat_of_ascii c in
  (((97 <=? n) && (n <=? 122)) || ((65 <=? n) && (n <=? 90)) ||
   ((48 <=? n) && (n <=? 57)))%nat.

(** [regexp.MustCompile("[^a-zA-Z0-9]+").ReplaceAllString(p, "")]: every
    run of bytes outside the three ranges is dropped.  (A rune that is
    not ASCII is made of bytes outside them.) *)
Fixpoint stripNonAlnum (p : string) : string :=
  match p with
  | EmptyString => EmptyString
  | String c r => if alnum c then String c (stripNonAlnum r) else stripNonAlnum r
  end.

Definition StrippedProject (s : SessionFilename) : string :=
  stripNonAlnum (fn_Project s).

Definition SessionFilename_String (s : SessionFilename) : string :=
  fn_Id s +++ "-" +++ StrippedProject s +++ "-" +++
  strconv.FormatInt (time.Time_Unix (fn_StartTime s)) +++ ".json".

(** The zero value of [time.Time]. *)
Definition zeroTime : time.Time := time.mkTime 0 0.

Definition parseSessionFileName (fileName : string) : error + SessionFilename :=
  match strings.Split fileName "-" with
  | [id; project; last] =>
      match strconv.ParseInt (strings.TrimSuffix last ".json") with
      | inl err => inl err
      | inr startTimeUnix =>
          inr (mkSessionFilename (time.Unix startTimeUnix 0) id project)
      end
  | _ => inl (errors_New "invalid session file name")
  end.


(** ** Sessions and their JSON form *)

(** Modelled from the spec: the package [internal/domain/session] is not
    among the sources.  A session has an id, a start time, a project
    and an ordered sequence of tags (the fields the test fixture of the
    start use case fills in). *)
Record Session := mkSession {
  Id : string;
  StartTime : time.Time;
  Project : string;
  Tags : list string
}.

(** [encoding/json] at the type [session.Session].  The bytes of a file
    are only ever produced by [json.MarshalIndent] and looked at by
    [json.Unmarshal], so they stay abstract. *)
Class JSON := {
  bytes : Type;
  json_MarshalIndent : Session -> error + bytes;
  json_Unmarshal : bytes -> error + Session
}.

(** ** Package sort *)

Module sort.

(** The insertion sort of package [sort], which is all that [sort.Sort]
    and [sort.Slice] run on a slice of at most twelve elements: each
    element in turn moves left while it is less than its left
    neighbour.  (On a longer slice the package sorts by other means,
    which can leave elements that compare equal in another order.)
    [rprefix] is the sorted prefix, rightmost element first. *)
Fixpoint insert {A} (less : A -> A -> bool) (x : A) (rprefix : list A) : list A :=
  match rprefix with
  | [] => [x]
  | y :: r => if less x y then y :: insert less x r else x :: rprefix
  end.

Definition insertionSort {A} (less : A -> A -> bool) (data : list A) : list A :=
  rev (fold_left (fun rprefix x => insert less x rprefix) data []).

End sort.

(** [Sessions.Less]. *)
Definition Sessions_Less (a b : Session) : bool :=
  time.Before (StartTime a) (StartTime b).

(** ** The flow folder and the effects of the store *)

Record FileInfo := mkFileInfo { Name : string; IsDir : bool }.

(** What ends the process: the calls of [log.Fatal] and [log.Fatalf],
    by what they report, and a run-time panic. *)
Inductive fatal :=
| FatalList (err : error)
| FatalParse (name : string) (err : error)
| FatalRead (name : string) (err : error)
| FatalInvalidData (name : string)
| FatalDelete (name : string) (err : error)
| Panic (msg : string).

Inductive outcome (A : Type) :=
| Done (a : A)
| Fatal (f : fatal).
Arguments Done {A} a.
Arguments Fatal {A} f.

Definition outcome_bind {A B} (o : outcome A) (k : A -> outcome B) : outcome B :=
  match o with
  | Done a => k a
  | Fatal f => Fatal f
  end.

Section Store.

Context {codec : JSON}.

Inductive node :=
| RegularFile (data : bytes)
| Directory.

(** The flow folder: its entries in the order [Readdir] lists them, and
    the names handed to [os.ReadFile] so far, latest first. *)
Record FS := mkFS {
  entries : list (string * node);
  reads : list string
}.

Definition M (A : Type) : Type := FS -> outcome A * FS.

Definition ret {A} (a : A) : M A := fun fs => (Done a, fs).

Definition bind {A B} (m : M A) (k : A -> M B) : M B :=
  fun fs =>
    match m fs with
    | (Done a, fs') => k a fs'
    | (Fatal f, fs') => (Fatal f, fs')
    end.

Definition log_Fatal {A} (f : fatal) : M A := fun fs => (Fatal f, fs).

Definition lift {A} (o : outcome A) : M A := fun fs => (o, fs).

Notation "x <- c ;; k" := (bind c (fun x => k))
  (at level 61, c at next level, right associativity).

Definition is_dir (n : node) : bool :=
  match n with
  | Directory => true
  | RegularFile _ => false
  end.

Fixpoint lookup (name : string) (l : list (string * node)) : option node :=
  match l with
  | [] => None
  | (n, x) :: r => if String.eqb n name then Some x else lookup name r
  end.

(** A name addresses an entry of the flow folder itself only when it has
    no path separator. *)
Definition flat (name : string) : bool :=
  negb (strings.ContainsByte name "/"%char).

Fixpoint replace (name : string) (data : bytes) (l : list (string * node))
  : list (string * node) :=
  match l with
  | [] => []
  | (n, x) :: r =>
      if String.eqb n name then (n, RegularFile data) :: r
      else (n, x) :: replace name data r
  end.

Fixpoint remove (name : string) (l : list (string * node))
  : list (string * node) :=
  match l with
  | [] => []
  | (n, x) :: r => if String.eqb n name then r else (n, x) :: remove name r
  end.

Definition fileInfoOf (e : string * node) : FileInfo :=
  mkFileInfo (fst e) (is_dir (snd e)).

Definition listing (l : list (string * node)) : list FileInfo := map fileInfoOf l.

(** [dir.Readdir(-1)] on the flow folder, which
    [NewFileSystemSessionRepository] has created.  The model is that of
    a folder in working order: it can be opened and listed, a listed
    file can be read, a listed entry can be removed.  The exits of the
    source on a failure of these calls are kept in the functions below;
    in this model they are not taken. *)
Definition readFlowFolder : M (error + list FileInfo) :=
  fun fs => (Done (inr (listing (entries fs))), fs).

(** [os.ReadFile(filepath.Join(FlowFolderPath, name))]: the content of
    the file of that name; an error when there is none or when the
    entry is a directory. *)
Definition os_ReadFile (name : string) : M (error + bytes) :=
  fun fs =>
    let fs' := mkFS (entries fs) (name :: reads fs) in
    match lookup name (entries fs) with
    | Some (RegularFile data) => (Done (inr data), fs')
    | Some Directory => (Done (inl (PathError "read" name "is a directory")), fs')
    | None => (Done (inl (PathError "open" name "no such file or directory")), fs')
    end.

(** What a write does under a name with a path separator.
    [filepath.Join] resolves such a name against the path of the flow
    folder: it can come to an entry of the folder under another name,
    to a file in a subdirectory or to a file outside the folder, and
    the write can succeed or fail.  The entries of the folder do not
    determine which, so the error returned and the entries left behind
    are left open. *)
Class World := {
  os_WriteFile_elsewhere :
    string -> bytes -> list (string * node) -> option error * list (string * node)
}.

Context {world : World}.

(** [os.WriteFile(filepath.Join(FlowFolderPath, name), data, 0666)] in a
    folder that can be written to.  Under a name without path separator
    an existing file is truncated and rewritten, a new one is created
    (the model lists it last), and a directory of that name is an
    error; under any other name see [World]. *)
Definition os_WriteFile (name : string) (data : bytes) : M (option error) :=
  fun fs =>
    if flat name then
      match lookup name (entries fs) with
      | Some (RegularFile _) =>
          (Done None, mkFS (replace name data (entries fs)) (reads fs))
      | Some Directory =>
          (Done (Some (PathError "open" name "is a directory")), fs)
      | None =>
          (Done None, mkFS (entries fs ++ [(name, RegularFile data)]) (reads fs))
      end
    else
      let '(err, l) := os_WriteFile_elsewhere name data (entries fs) in
      (Done err, mkFS l (reads fs)).

(** [os.Remove(filepath.Join(FlowFolderPath, name))]: the entry of that
    name is removed; an error when there is none. *)
Definition os_Remove (name : string) : M (option error) :=
  fun fs =>
    match lookup name (entries fs) with
    | Some _ => (Done None, mkFS (remove name (entries fs)) (reads fs))
    | None => (Done (Some (PathError "remove" name "no such file or directory")), fs)
    end.

(** ** The repository *)

Definition NotFoundError (id : string) : error :=
  errors_New ("session with id " +++ id +++ " not found").

Definition getSessionFileName (s : Session) : string :=
  SessionFilename_String (mkSessionFilename (StartTime s) (Id s) (Project s)).

Definition rawFileToSession (raw : bytes) : error + Session :=
  match json_Unmarshal raw with
  | inl err => inl err
  | inr sessionData => inr sessionData
  end.

Fixpoint FindById_loop (fileInfos : list FileInfo) (id : string) : M (option Session) :=
  match fileInfos with
  | [] => ret None
  | fileInfo :: rest =>
      if IsDir fileInfo then FindById_loop rest id
      else
        match parseSessionFileName (Name fileInfo) with
        | inl err => log_Fatal (FatalParse (Name fileInfo) err)
        | inr sessionFilename =>
            if String.eqb (fn_Id sessionFilename) id then
              file <- os_ReadFile (Name fileInfo) ;;
              match file with
              | inl err => log_Fatal (FatalRead (Name fileInfo) err)
              | inr file =>
                  match rawFileToSession file with
                  | inl _ => log_Fatal (FatalInvalidData (Name fileInfo))
                  | inr session => ret (Some session)
                  end
              end
            else FindById_loop rest id
        end
  end.

Definition FindById (id : string) : M (option Session) :=
  r <- readFlowFolder ;;
  match r with
  | inl err => log_Fatal (FatalList err)
  | inr fileInfos => FindById_loop fileInfos id
  end.

Definition Save (sessionToSave : Session) : M (option error) :=
  match json_MarshalIndent sessionToSave with
  | inl marshaledErr => ret (Some marshaledErr)
  | inr marshaled =>
      saveErr <- os_WriteFile (getSessionFileName sessionToSave) marshaled ;;
      match saveErr with
      | Some e => ret (Some e)
      | None => ret None
      end
  end.

Fixpoint Delete_loop (fileInfos : list FileInfo) (id : string) : M (option error) :=
  match fileInfos with
  | [] => ret (Some (NotFoundError id))
  | fileInfo :: rest =>
      if IsDir fileInfo then Delete_loop rest id
      else
        match parseSessionFileName (Name fileInfo) with
        | inl err => log_Fatal (FatalParse (Name fileInfo) err)
        | inr filenameInfo =>
            if String.eqb (fn_Id filenameInfo) id then
              deleteErr <- os_Remove (Name fileInfo) ;;
              match deleteErr with
              | Some err => log_Fatal (FatalDelete (Name fileInfo) err)
              | None => ret None
              end
            else Delete_loop rest id
        end
  end.

Definition Delete (id : string) : M (option error) :=
  r <- readFlowFolder ;;
  match r with
  | inl err => log_Fatal (FatalList err)
  | inr fileInfos => Delete_loop fileInfos id
  end.

(** Modelled from the spec: the package [pkg/timerange] is not among the
    sources.  A range carries an optional lower and an optional upper
    bound, which gives its four states: unbounded, since-only,
    until-only, since-and-until. *)
Record TimeRange := mkTimeRange {
  since : option time.Time;
  until : option time.Time
}.

Definition bound (b : option time.Time) : time.Time :=
  match b with
  | Some t => t
  | None => zeroTime
  end.

Definition isSome {A} (o : option A) : bool :=
  match o with
  | Some _ => true
  | None => false
  end.

Definition Since (r : TimeRange) : time.Time := bound (since r).
Definition Until (r : TimeRange) : time.Time := bound (until r).
Definition IsZero (r : TimeRange) : bool := negb (isSome (since r)) && negb (isSome (until r)).
Definition JustSince (r : TimeRange) : bool := isSome (since r) && negb (isSome (until r)).
Definition JustUntil (r : TimeRange) : bool := negb (isSome (since r)) && isSome (until r).
Definition SinceAndUntil (r : TimeRange) : bool := isSome (since r) && isSome (until r).

(** Modelled from the spec: [application.SessionsFilters] is not among
    the sources.  An optional project (the empty string when absent, as
    [FindAllSessions] tests it) and a time range. *)
Record SessionsFilters := mkSessionsFilters {
  Timerange : TimeRange;
  filter_Project : string
}.

Fixpoint filterByProject_loop (fileInfos : list FileInfo) (project : string)
    (filteredFileInfos : list FileInfo) : outcome (list FileInfo) :=
  match fileInfos with
  | [] => Done filteredFileInfos
  | fileInfo :: rest =>
      match parseSessionFileName (Name fileInfo) with
      | inl err => Fatal (FatalParse (Name fileInfo) err)
      | inr sessionFilename =>
          if String.eqb (fn_Project sessionFilename) project
          then filterByProject_loop rest project (filteredFileInfos ++ [fileInfo])
          else filterByProject_loop rest project filteredFileInfos
      end
  end.

Definition filterByProject (fileInfos : list FileInfo) (project : string)
  : outcome (list FileInfo) :=
  filterByProject_loop fileInfos project [].

Fixpoint filterByTimeRange_loop (fileInfos : list FileInfo) (timeRange : TimeRange)
    (filteredFileInfos : list FileInfo) : outcome (list FileInfo) :=
  match fileInfos with
  | [] => Done filteredFileInfos
  | fileInfo :: rest =>
      match parseSessionFileName (Name fileInfo) with
      | inl err => Fatal (FatalParse (Name fileInfo) err)
      | inr sessionFilename =>
          if JustUntil timeRange then
            if time.Before (fn_StartTime sessionFilename) (Until timeRange)
            then filterByTimeRange_loop rest timeRange (filteredFileInfos ++ [fileInfo])
            else filterByTimeRange_loop rest timeRange filteredFileInfos
          else if JustSince timeRange then
            if time.After (fn_StartTime sessionFilename) (Since timeRange)
            then filterByTimeRange_loop rest timeRange (filteredFileInfos ++ [fileInfo])
            else filterByTimeRange_loop rest timeRange filteredFileInfos
          else if SinceAndUntil timeRange then
            if time.After (fn_StartTime sessionFilename) (Since timeRange) &&
               time.Before (fn_StartTime sessionFilename) (Until timeRange)
            then filterByTimeRange_loop rest timeRange (filteredFileInfos ++ [fileInfo])
            else filterByTimeRange_loop rest timeRange filteredFileInfos
          else filterByTimeRange_loop rest timeRange (filteredFileInfos ++ [fileInfo])
      end
  end.

Definition filterByTimeRange (fileInfos : list FileInfo) (timeRange : TimeRange)
  : outcome (list FileInfo) :=
  filterByTimeRange_loop fileInfos timeRange [].

(** The second half of [FindAllSessions]: every entry that is no
    directory is read and decoded, then the sessions are sorted. *)
Fixpoint readSessions (fileInfos : list FileInfo) (sessions : list Session)
  : M (list Session) :=
  match fileInfos with
  | [] => ret sessions
  | fileInfo :: rest =>
      if IsDir fileInfo then readSessions rest sessions
      else
        file <- os_ReadFile (Name fileInfo) ;;
        match file with
        | inl err => log_Fatal (FatalRead (Name fileInfo) err)
        | inr file =>
            match rawFileToSession file with
            | inl _ => log_Fatal (FatalInvalidData (Name fileInfo))
            | inr session => readSessions rest (sessions ++ [session])
            end
        end
  end.

Definition FindAllSessions (filters : option SessionsFilters) : M (list Session) :=
  r <- readFlowFolder ;;
  match r with
  | inl err => log_Fatal (FatalList err)
  | inr fileInfos =>
      fileInfos <-
        match filters with
        | Some filters =>
            fileInfos <-
              (if negb (IsZero (Timerange filters))
               then lift (filterByTimeRange fileInfos (Timerange filters))
               else ret fileInfos) ;;
            if negb (String.eqb (filter_Project filters) EmptyString)
            then lift (filterByProject fileInfos (filter_Project filters))
            else ret fileInfos
        | None => ret fileInfos
        end ;;
      sessions <- readSessions fileInfos [] ;;
      ret (sort.insertionSort Sessions_Less sessions)
  end.

Fixpoint decodeFileNames (fileInfos : list FileInfo) (fileNames : list SessionFilename)
  : outcome (list SessionFilename) :=
  match fileInfos with
  | [] => Done fileNames
  | fileInfo :: rest =>
      if negb (IsDir fileInfo) then
        match parseSessionFileName (Name fileInfo) with
        | inl err => Fatal (FatalParse (Name fileInfo) err)
        | inr filenameInfo => decodeFileNames rest (fileNames ++ [filenameInfo])
        end
      else decodeFileNames rest fileNames
  end.

(** The comparison handed to [sort.Slice] in [FindLastSession]. *)
Definition later (a b : SessionFilename) : bool :=
  time.Before (fn_StartTime b) (fn_StartTime a).

Definition FindLastSession : M (option Session) :=
  r <- readFlowFolder ;;
  match r with
  | inl err => log_Fatal (FatalList err)
  | inr fileInfos =>
      fileNames <- lift (decodeFileNames fileInfos []) ;;
      if Nat.eqb (List.length fileNames) 0 then ret None
      else
        match sort.insertionSort later fileNames with
        | [] => log_Fatal (Panic "index out of range [0] with length 0")
        | first :: _ =>
            let lastSessionFile := SessionFilename_String first in
            fileData <- os_ReadFile lastSessionFile ;;
            match fileData with
            | inl err => log_Fatal (FatalRead lastSessionFile err)
            | inr fileData =>
                match rawFileToSession fileData with
                | inl _ => log_Fatal (FatalInvalidData lastSessionFile)
                | inr session => ret (Some session)
                end
            end
        end
  end.

(** ** The start use case *)




(** ** Projects and tags *)

(** [slices.Contains] on strings. *)
Definition slices_Contains (l : list string) (v : string) : bool :=
  existsb (String.eqb v) l.



(** The inner loop of [FindAllProjectTags], over the tags of one
    session. *)
Fixpoint FindAllProjectTags_tags (sessionTags : list string) (tags : list string)
  : list string :=
  match sessionTags with
  | [] => tags
  | tag :: rest =>
      if slices_Contains tags tag
      then FindAllProjectTags_tags rest tags
      else FindAllProjectTags_tags rest (tags ++ [tag])
  end.

Fixpoint FindAllProjectTags_loop (sessionsForProject : list Session) (tags : list string)
  : list string :=
  match sessionsForProject with
  | [] => tags
  | session :: rest =>
      FindAllProjectTags_loop rest (FindAllProjectTags_tags (Tags session) tags)
  end.

(** [&application.SessionsFilters{Project: project}] leaves the time
    range at its zero value, the unbounded range. *)
Definition FindAllProjectTags (project : string) : M (list string) :=
  sessionsForProject <-
    FindAllSessions (Some (mkSessionsFilters (mkTimeRange None None) project)) ;;
  ret (FindAllProjectTags_loop sessionsForProject []).

(** The sessions that the files of a folder hold, in listing order. *)
Fixpoint storedSessions (l : list (string * node)) : list Session :=
  match l with
  | [] => []
  | (_, RegularFile b) :: r =>
      match json_Unmarshal b with
      | inr s => s :: storedSessions r
      | inl _ => storedSessions r
      end
  | (_, Directory) :: r => storedSessions r
  end.

(** ** States of the store *)

Definition decodes (name : string) : Prop :=
  exists fn, parseSessionFileName name = inr fn.

Definition idOf (name : string) (id : string) : Prop :=
  exists fn, parseSessionFileName name = inr fn /\ fn_Id fn = id.

(** The data model of the store: the names in the flow folder are
    distinct; every file holds a session, under the name the codec
    gives that session, and the name decodes; no two files carry the
    same id. *)
Definition storeState (fs : FS) : Prop :=
  NoDup (map fst (entries fs)) /\
  (forall n b, In (n, RegularFile b) (entries fs) ->
     decodes n /\
     exists s, n = getSessionFileName s /\ json_Unmarshal b = inr s) /\
  (forall n1 b1 n2 b2 id,
     In (n1, RegularFile b1) (entries fs) -> In (n2, RegularFile b2) (entries fs) ->
     idOf n1 id -> idOf n2 id -> n1 = n2).



Definition emptyFS : FS := mkFS [] [].

Definition notDir (fileInfo : FileInfo) : bool := negb (IsDir fileInfo).

End Store.

(** A codec for the examples: a file holds a session, or bytes that are
    no JSON. *)
Definition exampleCodec : JSON := {|
  bytes := option Session;
  json_MarshalIndent s := inr (Some s);
  json_Unmarshal raw :=
    match raw with
    | Some s => inr s
    | None => inl (errors_New "unexpected end of JSON input")
    end
|}.

(** The world of the examples: a name with a path separator leads out
    of the flow folder, as an id that starts with [../] does, and the
    write succeeds there. *)
#[export] Instance exampleWorld : @World exampleCodec := {|
  os_WriteFile_elsewhere _ _ l := (None, l)
|}.

(** ** Example data *)

(** The time [secs] seconds and [nanos] nanoseconds after the Unix
    epoch. *)
Definition at_ (secs nanos : Z) : time.Time :=
  time.mkTime (secs + time.unixToInternal) nanos.

Definition s10 : Session := mkSession "a" (at_ 10 0) "Flow" ["start"].
Definition s20 : Session := mkSession "b" (at_ 20 0) "Flow" [].
Definition s30 : Session := mkSession "c" (at_ 30 500000000) "Other" [].

Definition emptyStore : @FS exampleCodec := emptyFS.

Definition fileOf (s : Session) : @node exampleCodec :=
  @RegularFile exampleCodec (Some s).

Definition exampleStore : @FS exampleCodec :=
  mkFS [("a-Flow-10.json", fileOf s10);
        ("c-Other-30.json", fileOf s30);
        ("b-Flow-20.json", fileOf s20)] [].

(** Half a second past 17:20:00 UTC on April 13, 2024. *)
Definition sHalf : Session :=
  mkSession "1" (at_ 1713028800 500000000) "Flow" ["start"].

(** Five seconds before the epoch. *)
Definition sOld : Session := mkSession "1" (at_ (-5) 0) "Flow" ["start"].

(** A project name with a space. *)
Definition sSpaced : Session := mkSession "1" (at_ 10 0) "my project" ["start"].

Definition withSubdirectory : @FS exampleCodec :=
  mkFS [("a-Flow-10.json", fileOf s10);
        ("archive", Directory);
        ("b-Flow-20.json", fileOf s20)] [].

(** A session that shares its file with [sHalf]: the same id and
    second, a project that sanitizes alike. *)
Definition sHalfAgain : Session :=
  mkSession "1" (at_ 1713028800 7) "F-l-o-w" ["again"].

(** A folder whose one file lacks the [.json] suffix. *)
Definition unsuffixed : @FS exampleCodec :=
  mkFS [("a-Flow-10", fileOf s10)] [].

(** A folder with a subdirectory and a file that is not named like a
    session. *)
Definition mixedFolder : @FS exampleCodec :=
  mkFS [("notes.txt", fileOf s20);
        ("archive", Directory);
        ("a-Flow-10.json", fileOf s10)] [].

(** An id that leads out of the flow folder. *)
Definition sUp : Session := mkSession "../x" (at_ 10 0) "Flow" ["start"].



(** The folder after [s10] and [sOld] were saved. *)
Definition withOld : @FS exampleCodec :=
  mkFS [("a-Flow-10.json", fileOf s10);
        ("1-Flow--5.json", fileOf sOld)] [].

(** Two files that carry one id. *)
Definition sTwice : Session := mkSession "a" (at_ 20 0) "Other" [].

Definition oneIdTwice : @FS exampleCodec :=
  mkFS [("a-Flow-10.json", fileOf s10);
        ("a-Other-20.json", fileOf sTwice)] [].

(** A folder with a file whose content is no JSON. *)
Definition corrupt : @FS exampleCodec :=
  mkFS [("a-Flow-10.json", fileOf s10);
        ("b-Flow-20.json", @RegularFile exampleCodec None)] [].

(** ** Vocabulary of the statements *)

(** The first entry of a listing whose name does not decode, as the
    fatal exit it causes in the filters. *)
Fixpoint firstUndecodable (fileInfos : list FileInfo) : option fatal :=
  match fileInfos with
  | [] => None
  | fileInfo :: rest =>
      match parseSessionFileName (Name fileInfo) with
      | inl err => Some (FatalParse (Name fileInfo) err)
      | inr _ => firstUndecodable rest
      end
  end.

(** The decoded project of an entry is [project], byte for byte. *)
Definition projectIs (project : string) (fileInfo : FileInfo) : bool :=
  match parseSessionFileName (Name fileInfo) with
  | inr fn => String.eqb (fn_Project fn) project
  | inl _ => false
  end.

(** [t] is strictly after the lower bound and strictly before the upper
    bound, where they are set. *)
Definition within (r : TimeRange) (t : time.Time) : bool :=
  match since r with Some s => time.After t s | None => true end &&
  match until r with Some u => time.Before t u | None => true end.

Definition startsWithin (r : TimeRange) (fileInfo : FileInfo) : bool :=
  match parseSessionFileName (Name fileInfo) with
  | inr fn => within r (fn_StartTime fn)
  | inl _ => false
  end.

(** The entries that [FindAllSessions] goes on to read: the listing
    after the filters it applies, in the order it applies them. *)
Definition selectEntries (filters : option SessionsFilters) (fileInfos : list FileInfo)
  : outcome (list FileInfo) :=
  match filters with
  | Some filters =>
      outcome_bind
        (if negb (IsZero (Timerange filters))
         then filterByTimeRange fileInfos (Timerange filters)
         else Done fileInfos)
        (fun fileInfos =>
           if negb (String.eqb (filter_Project filters) EmptyString)
           then filterByProject fileInfos (filter_Project filters)
           else Done fileInfos)
  | None => Done fileInfos
  end.

(** Non-decreasing by start time. *)
Definition ascending (l : list Session) : Prop :=
  StronglySorted (fun a b => time.Before (StartTime b) (StartTime a) = false) l.

(** Strings of ASCII letters and digits. *)
Fixpoint allAlnum (s : string) : bool :=
  match s with
  | EmptyString => true
  | String c r => alnum c && allAlnum r
  end.

(** A start time as a file name keeps it: cut to the whole second. *)
Definition truncated (t : time.Time) : time.Time :=
  time.Unix (time.Time_Unix t) 0.

(** What the filters of [FindAllSessions] come to for the session that
    a file of the store holds: its start time, cut to the second, lies
    within the range, and, when a project is asked for, its sanitized
    project is that project, byte for byte. *)
Definition selected (filters : option SessionsFilters) (s : Session) : bool :=
  match filters with
  | None => true
  | Some f =>
      within (Timerange f) (truncated (StartTime s)) &&
      (String.eqb (filter_Project f) EmptyString ||
       String.eqb (stripNonAlnum (Project s)) (filter_Project f))
  end.

(** What the filters of [FindAllSessions] keep of a listing whose names
    all decode. *)
Definition keeps (filters : option SessionsFilters) (fileInfo : FileInfo) : bool :=
  match filters with
  | None => true
  | Some f =>
      startsWithin (Timerange f) fileInfo &&
      (String.eqb (filter_Project f) EmptyString ||
       projectIs (filter_Project f) fileInfo)
  end.

(** Strings of decimal digits. *)
Fixpoint allDigits (s : string) : bool :=
  match s with
  | EmptyString => true
  | String c r => strconv.isDigit c && allDigits r
  end.

(** * Properties *)

(** ** Strings *)

Lemma length_append (a b : string) :
  String.length (a +++ b) = (String.length a + String.length b)%nat.
Proof. induction a as [|c a IH]; simpl; [reflexivity | now rewrite IH]. Qed.

Lemma append_assoc (a b c : string) : (a +++ b) +++ c = a +++ b +++ c.
Proof. induction a as [|x a IH]; simpl; [reflexivity | now rewrite IH]. Qed.

Lemma substring_prefix (a b : string) :
  substring 0 (String.length a) (a +++ b) = a.
Proof.
  induction a as [|c a IH]; simpl.
  - destruct b; reflexivity.
  - now rewrite IH.
Qed.

Lemma substring_all (b : string) : substring 0 (String.length b) b = b.
Proof. induction b as [|c b IH]; simpl; [reflexivity | now rewrite IH]. Qed.

Lemma substring_suffix (a b : string) :
  substring (String.length a) (String.length b) (a +++ b) = b.
Proof.
  induction a as [|c a IH]; simpl; [apply substring_all | exact IH].
Qed.

Lemma TrimSuffix_append (a suffix : string) :
  strings.TrimSuffix (a +++ suffix) suffix = a.
Proof.
  unfold strings.TrimSuffix, strings.HasSuffix.
  rewrite length_append.
  replace (String.length a + String.length suffix - String.length suffix)%nat
    with (String.length a) by lia.
  rewrite substring_suffix, String.eqb_refl, substring_prefix.
  replace (String.length suffix <=? String.length a + String.length suffix)%nat
    with true by (symmetry; apply Nat.leb_le; lia).
  reflexivity.
Qed.

Lemma Count_append (a b : string) (c : ascii) :
  strings.Count (a +++ b) c = (strings.Count a c + strings.Count b c)%nat.
Proof. induction a as [|x a IH]; simpl; [reflexivity | rewrite IH; lia]. Qed.

Lemma Split_length (s : string) (c : ascii) :
  List.length (strings.Split s c) = S (strings.Count s c).
Proof.
  induction s as [|x s IH]; simpl; [reflexivity|].
  destruct (Ascii.eqb x c); simpl.
  - now rewrite IH.
  - destruct (strings.Split s c); simpl in *; lia.
Qed.

Lemma Split_without (s : string) (c : ascii) :
  strings.Count s c = 0%nat -> strings.Split s c = [s].
Proof.
  induction s as [|x s IH]; simpl; [reflexivity|].
  destruct (Ascii.eqb x c); simpl; [discriminate|].
  intros H. now rewrite (IH H).
Qed.

Lemma Split_append (a b : string) (c : ascii) :
  strings.Count a c = 0%nat ->
  strings.Split (a +++ String c b) c = a :: strings.Split b c.
Proof.
  induction a as [|x a IH]; simpl.
  - now rewrite Ascii.eqb_refl.
  - destruct (Ascii.eqb x c); simpl; [discriminate|].
    intros H. now rewrite (IH H).
Qed.

(** ** Decimal numbers *)

Lemma digit_cases (d : Z) :
  0 <= d <= 9 ->
  d = 0 \/ d = 1 \/ d = 2 \/ d = 3 \/ d = 4 \/ d = 5 \/ d = 6 \/ d = 7 \/ d = 8 \/ d = 9.
Proof. lia. Qed.

Lemma digit_isDigit (d : Z) : 0 <= d <= 9 -> strconv.isDigit (strconv.digit d) = true.
Proof.
  intros H. destruct (digit_cases d H) as [E|[E|[E|[E|[E|[E|[E|[E|[E|E]]]]]]]]];
    subst d; reflexivity.
Qed.

Lemma digit_digitVal (d : Z) : 0 <= d <= 9 -> strconv.digitVal (strconv.digit d) = d.
Proof.
  intros H. destruct (digit_cases d H) as [E|[E|[E|[E|[E|[E|[E|[E|[E|E]]]]]]]]];
    subst d; reflexivity.
Qed.

Lemma formatBits_allDigits (fuel : nat) : forall (u : Z) (acc : string),
  0 <= u -> allDigits acc = true -> allDigits (strconv.formatBits fuel u acc) = true.
Proof.
  induction fuel as [|fuel IH]; intros u acc Hu Hacc; cbn [strconv.formatBits];
    [exact Hacc|].
  destruct (10 <=? u) eqn:E.
  - apply IH; [apply Z.div_pos; lia|].
    cbn [allDigits]. rewrite digit_isDigit, Hacc; [reflexivity|].
    pose proof (Z.mod_pos_bound u 10). lia.
  - apply Z.leb_gt in E. cbn [allDigits]. rewrite digit_isDigit, Hacc; [reflexivity | lia].
Qed.

Lemma formatBits_nonempty (fuel : nat) : forall (u : Z) (acc : string),
  strconv.formatBits (S fuel) u acc <> EmptyString.
Proof.
  induction fuel as [|fuel IH]; intros u acc; cbn [strconv.formatBits].
  - destruct (10 <=? u); discriminate.
  - destruct (10 <=? u); [|discriminate].
    apply (IH (u / 10) (String (strconv.digit (u mod 10)) acc)).
Qed.

Lemma formatBits_parseDigits (fuel : nat) : forall (u : Z) (acc : string),
  0 <= u <= strconv.maxUint64 -> u < 10 ^ Z.of_nat fuel ->
  strconv.parseDigits (strconv.formatBits fuel u acc) 0 = strconv.parseDigits acc u.
Proof.
  induction fuel as [|fuel IH]; intros u acc Hu Hf.
  - simpl in Hf. assert (u = 0) by lia. subst u. reflexivity.
  - cbn [strconv.formatBits].
    assert (Hmax : strconv.maxUint64 = 18446744073709551615) by reflexivity.
    assert (Hcut : strconv.maxUint64 / 10 + 1 = 1844674407370955162) by reflexivity.
    destruct (10 <=? u) eqn:E.
    + apply Z.leb_le in E.
      pose proof (Z.mod_pos_bound u 10 ltac:(lia)) as Hm.
      pose proof (Z.div_mod u 10 ltac:(lia)) as Hd.
      rewrite IH.
      * cbn [strconv.parseDigits].
        rewrite digit_isDigit, digit_digitVal by lia.
        rewrite Hcut.
        destruct (1844674407370955162 <=? u / 10) eqn:E1;
          [apply Z.leb_le in E1; lia|].
        replace (u / 10 * 10 + u mod 10) with u by lia.
        destruct (strconv.maxUint64 <? u) eqn:E2;
          [apply Z.ltb_lt in E2; lia | reflexivity].
      * split; [apply Z.div_pos; lia | lia].
      * apply Z.div_lt_upper_bound; [lia|].
        rewrite Nat2Z.inj_succ, Z.pow_succ_r in Hf by lia. exact Hf.
    + apply Z.leb_gt in E.
      cbn [strconv.parseDigits].
      rewrite digit_isDigit, digit_digitVal by lia.
      rewrite Hcut. simpl (1844674407370955162 <=? 0).
      cbv iota. replace (0 * 10 + u) with u by lia.
      destruct (strconv.maxUint64 <? u) eqn:E2;
        [apply Z.ltb_lt in E2; lia | reflexivity].
Qed.

Lemma allDigits_Count (s : string) (c : ascii) :
  allDigits s = true -> strconv.isDigit c = false -> strings.Count s c = 0%nat.
Proof.
  induction s as [|x s IH]; cbn [allDigits strings.Count]; [reflexivity|].
  intros H Hc. apply andb_true_iff in H as [Hx Hs].
  destruct (Ascii.eqb x c) eqn:E.
  - apply Ascii.eqb_eq in E. subst x. congruence.
  - now rewrite IH.
Qed.

Lemma FormatInt_nonneg (z : Z) :
  0 <= z -> strconv.FormatInt z = strconv.formatBits 20 z EmptyString.
Proof.
  intros H. unfold strconv.FormatInt.
  destruct (z <? 0) eqn:E; [apply Z.ltb_lt in E; lia | reflexivity].
Qed.

Lemma FormatInt_allDigits (z : Z) : 0 <= z -> allDigits (strconv.FormatInt z) = true.
Proof.
  intros H. rewrite FormatInt_nonneg by exact H.
  now apply formatBits_allDigits.
Qed.

Lemma FormatInt_negative (z : Z) :
  z < 0 -> (1 <= strings.Count (strconv.FormatInt z) "-")%nat.
Proof.
  intros H. unfold strconv.FormatInt.
  destruct (z <? 0) eqn:E; [|apply Z.ltb_ge in E; lia].
  cbn [strings.Count]. rewrite Ascii.eqb_refl. lia.
Qed.

Lemma ParseInt_FormatInt (z : Z) :
  0 <= z < 2 ^ 63 -> strconv.ParseInt (strconv.FormatInt z) = inr z.
Proof.
  intros H.
  pose proof (FormatInt_allDigits z ltac:(lia)) as Hd.
  rewrite FormatInt_nonneg in * by lia.
  pose proof (formatBits_nonempty 19 z EmptyString) as Hne.
  pose proof (formatBits_parseDigits 20 z EmptyString) as Hp.
  destruct (strconv.formatBits 20 z EmptyString) as [|c r] eqn:E; [congruence|].
  cbn [allDigits] in Hd. apply andb_true_iff in Hd as [Hc _].
  unfold strconv.ParseInt.
  assert (Hminus : Ascii.eqb c "-" = false).
  { destruct (Ascii.eqb c "-") eqn:X; [|reflexivity].
    apply Ascii.eqb_eq in X. subst c. discriminate Hc. }
  assert (Hplus : Ascii.eqb c "+" = false).
  { destruct (Ascii.eqb c "+") eqn:X; [|reflexivity].
    apply Ascii.eqb_eq in X. subst c. discriminate Hc. }
  rewrite Hminus, Hplus. cbn [orb negb andb].
  unfold strconv.ParseUint. rewrite Hp.
  - cbn [strconv.parseDigits].
    destruct (2 ^ 63 <=? z) eqn:X; [apply Z.leb_le in X; lia | reflexivity].
  - unfold strconv.maxUint64. lia.
  - change (10 ^ Z.of_nat 20) with 100000000000000000000. lia.
Qed.

(** ** Times *)

Lemma int64_range (z : Z) : - 2 ^ 63 <= time.int64 z < 2 ^ 63.
Proof.
  unfold time.int64. pose proof (Z.mod_pos_bound (z + 2 ^ 63) (2 ^ 64)). lia.
Qed.

Lemma int64_wrap (z : Z) : exists k, time.int64 z = z + k * 2 ^ 64.
Proof.
  exists (- ((z + 2 ^ 63) / 2 ^ 64)). unfold time.int64.
  rewrite Z.mod_eq by lia. lia.
Qed.

Lemma int64_small (z : Z) : - 2 ^ 63 <= z < 2 ^ 63 -> time.int64 z = z.
Proof.
  intros H. destruct (int64_wrap z) as [k Hk]. pose proof (int64_range z). lia.
Qed.

Lemma Unix_zero_nsec (x : Z) :
  time.Unix x 0 = time.mkTime (time.int64 (x + time.unixToInternal)) 0.
Proof. reflexivity. Qed.

Lemma Time_Unix_Unix (x : Z) :
  - 2 ^ 63 <= x < 2 ^ 63 -> time.Time_Unix (time.Unix x 0) = x.
Proof.
  intros H. rewrite Unix_zero_nsec. unfold time.Time_Unix. cbn [time.sec].
  destruct (int64_wrap (x + time.unixToInternal)) as [k Hk].
  destruct (int64_wrap (time.int64 (x + time.unixToInternal) - time.unixToInternal))
    as [k' Hk'].
  pose proof (int64_range (time.int64 (x + time.unixToInternal) - time.unixToInternal)).
  lia.
Qed.

(** ** The file-name codec *)

Lemma stripNonAlnum_Count (p : string) (c : ascii) :
  alnum c = false -> strings.Count (stripNonAlnum p) c = 0%nat.
Proof.
  intros Hc. induction p as [|x p IH]; cbn [stripNonAlnum]; [reflexivity|].
  destruct (alnum x) eqn:Hx; [|exact IH].
  cbn [strings.Count]. rewrite IH.
  destruct (Ascii.eqb x c) eqn:E; [|reflexivity].
  apply Ascii.eqb_eq in E. congruence.
Qed.

Lemma stripNonAlnum_idem (p : string) :
  stripNonAlnum (stripNonAlnum p) = stripNonAlnum p.
Proof.
  induction p as [|x p IH]; cbn [stripNonAlnum]; [reflexivity|].
  destruct (alnum x) eqn:Hx; [|exact IH].
  cbn [stripNonAlnum]. now rewrite Hx, IH.
Qed.

Lemma String_Count (fn : SessionFilename) (c : ascii) :
  strings.Count (SessionFilename_String fn) c =
  (strings.Count (fn_Id fn) c + strings.Count "-" c +
   strings.Count (StrippedProject fn) c + strings.Count "-" c +
   strings.Count (strconv.FormatInt (time.Time_Unix (fn_StartTime fn))) c +
   strings.Count ".json" c)%nat.
Proof.
  unfold SessionFilename_String. rewrite !Count_append. lia.
Qed.

Lemma parse_parts (fileName : string) :
  List.length (strings.Split fileName "-") <> 3%nat ->
  parseSessionFileName fileName = inl (errors_New "invalid session file name").
Proof.
  unfold parseSessionFileName.
  destruct (strings.Split fileName "-") as [|a [|b [|c [|d l]]]]; cbn [List.length];
    intros H; try reflexivity.
  contradiction H; reflexivity.
Qed.

Lemma parse_three (fileName id project last : string) :
  strings.Split fileName "-" = [id; project; last] ->
  parseSessionFileName fileName =
  match strconv.ParseInt (strings.TrimSuffix last ".json") with
  | inl err => inl err
  | inr startTimeUnix => inr (mkSessionFilename (time.Unix startTimeUnix 0) id project)
  end.
Proof. unfold parseSessionFileName. intros ->. reflexivity. Qed.

Lemma Split_String (fn : SessionFilename) :
  strings.Count (fn_Id fn) "-" = 0%nat ->
  0 <= time.Time_Unix (fn_StartTime fn) ->
  strings.Split (SessionFilename_String fn) "-" =
  [fn_Id fn; StrippedProject fn;
   strconv.FormatInt (time.Time_Unix (fn_StartTime fn)) +++ ".json"].
Proof.
  intros Hid Ht. unfold SessionFilename_String.
  change ("-" +++ ?x) with (String "-"%char x).
  rewrite Split_append by exact Hid.
  change ("-" +++ ?x) with (String "-"%char x).
  rewrite Split_append by (apply stripNonAlnum_Count; reflexivity).
  rewrite Split_without; [reflexivity|].
  rewrite Count_append, (allDigits_Count _ "-" (FormatInt_allDigits _ Ht) eq_refl).
  reflexivity.
Qed.

Lemma Time_Unix_bounds (t : time.Time) :
  - 2 ^ 63 <= time.Time_Unix t < 2 ^ 63.
Proof. apply int64_range. Qed.

Lemma parse_String (fn : SessionFilename) :
  strings.Count (fn_Id fn) "-" = 0%nat ->
  0 <= time.Time_Unix (fn_StartTime fn) ->
  parseSessionFileName (SessionFilename_String fn) =
  inr (mkSessionFilename (time.Unix (time.Time_Unix (fn_StartTime fn)) 0)
         (fn_Id fn) (StrippedProject fn)).
Proof.
  intros Hid Ht.
  rewrite (parse_three _ _ _ _ (Split_String fn Hid Ht)).
  rewrite TrimSuffix_append, ParseInt_FormatInt; [reflexivity|].
  pose proof (Time_Unix_bounds (fn_StartTime fn)). lia.
Qed.

(** A file name that decodes was encoded from an id without ['-'] and
    a start time that is not before the epoch. *)
Lemma String_decodes_inv (fn fn' : SessionFilename) :
  parseSessionFileName (SessionFilename_String fn) = inr fn' ->
  strings.Count (fn_Id fn) "-" = 0%nat /\ 0 <= time.Time_Unix (fn_StartTime fn).
Proof.
  intros H.
  assert (L : List.length (strings.Split (SessionFilename_String fn) "-") = 3%nat).
  { destruct (Nat.eq_dec (List.length (strings.Split (SessionFilename_String fn) "-")) 3)
      as [E|E]; [exact E|].
    rewrite (parse_parts _ E) in H. discriminate. }
  rewrite Split_length, String_Count in L. unfold StrippedProject in L.
  rewrite (stripNonAlnum_Count (fn_Project fn) "-" eq_refl) in L.
  cbn [strings.Count Ascii.eqb Bool.eqb] in L.
  split; [lia|].
  destruct (Z_lt_ge_dec (time.Time_Unix (fn_StartTime fn)) 0) as [N|N]; [|lia].
  pose proof (FormatInt_negative _ N). lia.
Qed.

(** Encoding a decoded file name of the store gives the file name
    back. *)
Lemma String_parse_canonical (fn fn' : SessionFilename) :
  parseSessionFileName (SessionFilename_String fn) = inr fn' ->
  SessionFilename_String fn' = SessionFilename_String fn.
Proof.
  intros H. destruct (String_decodes_inv _ _ H) as [Hid Ht].
  rewrite (parse_String fn Hid Ht) in H. injection H as <-.
  unfold SessionFilename_String, StrippedProject. cbn [fn_Id fn_Project fn_StartTime].
  rewrite stripNonAlnum_idem, Time_Unix_Unix by apply Time_Unix_bounds.
  reflexivity.
Qed.

(** C8.  Decoding splits the file name on ['-'].  Unless that gives
    exactly three parts it fails with the invalid-file-name error; with
    three parts it fails with the error of [ParseInt] when the third
    part, its [.json] suffix trimmed, is no base-10 integer, and
    otherwise succeeds with the first two parts and that time.  Hence
    the file name encoded from an id that contains ['-'] never
    decodes. *)
Theorem parseSessionFileName_three_parts (fileName : string) :
  (List.length (strings.Split fileName "-") <> 3%nat ->
   parseSessionFileName fileName = inl (errors_New "invalid session file name")) /\
  (forall id project last err,
     strings.Split fileName "-" = [id; project; last] ->
     strconv.ParseInt (strings.TrimSuffix last ".json") = inl err ->
     parseSessionFileName fileName = inl err) /\
  (forall id project last n,
     strings.Split fileName "-" = [id; project; last] ->
     strconv.ParseInt (strings.TrimSuffix last ".json") = inr n ->
     parseSessionFileName fileName =
     inr (mkSessionFilename (time.Unix n 0) id project)) /\
  (forall id t project,
     strings.ContainsByte id "-" = true ->
     parseSessionFileName
       (SessionFilename_String (mkSessionFilename t id project)) =
     inl (errors_New "invalid session file name")).
Proof.
  split; [apply parse_parts|].
  split; [intros id project last err HS HP; now rewrite (parse_three _ _ _ _ HS), HP|].
  split; [intros id project last n HS HP; now rewrite (parse_three _ _ _ _ HS), HP|].
  intros id t project Hc. apply parse_parts.
  rewrite Split_length, String_Count. cbn [fn_Id].
  unfold strings.ContainsByte in Hc.
  destruct (strings.Count id "-") as [|k]; [discriminate Hc|].
  cbn [strings.Count Ascii.eqb Bool.eqb]. lia.
Qed.

(** ** The filters *)

Lemma filterByProject_loop_eq (project : string) (fileInfos : list FileInfo) :
  forall acc,
  filterByProject_loop fileInfos project acc =
  match firstUndecodable fileInfos with
  | Some f => Fatal f
  | None => Done (acc ++ filter (projectIs project) fileInfos)
  end.
Proof.
  induction fileInfos as [|fi rest IH]; intros acc;
    cbn [filterByProject_loop firstUndecodable filter].
  - now rewrite app_nil_r.
  - unfold projectIs at 1.
    destruct (parseSessionFileName (Name fi)) as [err|fn]; [reflexivity|].
    destruct (String.eqb (fn_Project fn) project); rewrite IH;
      destruct (firstUndecodable rest); try reflexivity.
    now rewrite <- app_assoc.
Qed.

Lemma filterByProject_eq (project : string) (fileInfos : list FileInfo) :
  filterByProject fileInfos project =
  match firstUndecodable fileInfos with
  | Some f => Fatal f
  | None => Done (filter (projectIs project) fileInfos)
  end.
Proof. unfold filterByProject. now rewrite filterByProject_loop_eq. Qed.

Lemma filterByTimeRange_loop_eq (r : TimeRange) (fileInfos : list FileInfo) :
  forall acc,
  filterByTimeRange_loop fileInfos r acc =
  match firstUndecodable fileInfos with
  | Some f => Fatal f
  | None => Done (acc ++ filter (startsWithin r) fileInfos)
  end.
Proof.
  induction fileInfos as [|fi rest IH]; intros acc;
    cbn [filterByTimeRange_loop firstUndecodable filter].
  - now rewrite app_nil_r.
  - unfold startsWithin at 1.
    destruct (parseSessionFileName (Name fi)) as [err|fn]; [reflexivity|].
    unfold JustUntil, JustSince, SinceAndUntil, Since, Until, within.
    destruct r as [[s|] [u|]]; cbn [since until isSome negb andb bound];
      rewrite ?andb_true_r;
      repeat match goal with
             | |- context [if ?b then _ else _] => destruct b
             end;
      rewrite IH; destruct (firstUndecodable rest); try reflexivity;
      rewrite <- ?app_assoc; reflexivity.
Qed.

Lemma filterByTimeRange_eq (r : TimeRange) (fileInfos : list FileInfo) :
  filterByTimeRange fileInfos r =
  match firstUndecodable fileInfos with
  | Some f => Fatal f
  | None => Done (filter (startsWithin r) fileInfos)
  end.
Proof. unfold filterByTimeRange. now rewrite filterByTimeRange_loop_eq. Qed.

Lemma firstUndecodable_None (fileInfos : list FileInfo) :
  (forall fi, In fi fileInfos -> exists fn, parseSessionFileName (Name fi) = inr fn) ->
  firstUndecodable fileInfos = None.
Proof.
  induction fileInfos as [|fi rest IH]; intros H; cbn [firstUndecodable]; [reflexivity|].
  destruct (H fi (or_introl eq_refl)) as [fn ->].
  apply IH. intros x Hx. apply H. now right.
Qed.

Lemma firstUndecodable_filter (keep : FileInfo -> bool) (fileInfos : list FileInfo) :
  firstUndecodable fileInfos = None ->
  firstUndecodable (filter keep fileInfos) = None.
Proof.
  induction fileInfos as [|fi rest IH]; cbn [firstUndecodable filter]; [reflexivity|].
  destruct (parseSessionFileName (Name fi)) as [err|fn] eqn:E; [discriminate|].
  intros H. destruct (keep fi); [|now apply IH].
  cbn [firstUndecodable]. rewrite E. now apply IH.
Qed.

Lemma firstUndecodable_Some (fileInfos : list FileInfo) (fi : FileInfo) (err : error) :
  In fi fileInfos -> parseSessionFileName (Name fi) = inl err ->
  exists f, firstUndecodable fileInfos = Some f.
Proof.
  induction fileInfos as [|x rest IH]; intros Hin Herr; [contradiction|].
  cbn [firstUndecodable].
  destruct (parseSessionFileName (Name x)) as [e|fn] eqn:E; [eauto|].
  destruct Hin as [->|Hin]; [congruence | now apply IH].
Qed.

Lemma filter_comm {A} (p q : A -> bool) (l : list A) :
  filter p (filter q l) = filter q (filter p l).
Proof.
  induction l as [|x l IH]; cbn [filter]; [reflexivity|].
  destruct (p x) eqn:P, (q x) eqn:Q; cbn [filter]; rewrite ?P, ?Q, IH; reflexivity.
Qed.

(** C4.  On entries that all decode, the time-range filter keeps exactly
    those whose decoded start time is strictly after [since] and
    strictly before [until], each where it is set, in their listing
    order.  Of sessions at 10, 20 and 30 seconds, [until = 25] keeps 10
    and 20, [since = 15] keeps 20 and 30, both together keep 20, and
    the unbounded range keeps all three. *)
Theorem filterByTimeRange_exclusive_bounds (fileInfos : list FileInfo) (r : TimeRange) :
  ((forall fi, In fi fileInfos -> exists fn, parseSessionFileName (Name fi) = inr fn) ->
   filterByTimeRange fileInfos r = Done (filter (startsWithin r) fileInfos)) /\
  (let at10 := mkFileInfo "a-Flow-10.json" false in
   let at20 := mkFileInfo "b-Flow-20.json" false in
   let at30 := mkFileInfo "c-Flow-30.json" false in
   let t15 := Some (time.Unix 15 0) in
   let t25 := Some (time.Unix 25 0) in
   filterByTimeRange [at10; at20; at30] (mkTimeRange None t25) = Done [at10; at20] /\
   filterByTimeRange [at10; at20; at30] (mkTimeRange t15 None) = Done [at20; at30] /\
   filterByTimeRange [at10; at20; at30] (mkTimeRange t15 t25) = Done [at20] /\
   filterByTimeRange [at10; at20; at30] (mkTimeRange None None) = Done [at10; at20; at30]).
Proof.
  split.
  - intros H. now rewrite filterByTimeRange_eq, (firstUndecodable_None _ H).
  - repeat split; vm_compute; reflexivity.
Qed.

(** ** Sorting *)

Section InsertionSort.

Context {A : Type} (less : A -> A -> bool).

Lemma insert_Permutation (x : A) (rprefix : list A) :
  Permutation (sort.insert less x rprefix) (x :: rprefix).
Proof.
  induction rprefix as [|y r IH]; cbn [sort.insert]; [reflexivity|].
  destruct (less x y); [|reflexivity].
  rewrite IH. apply perm_swap.
Qed.

Lemma fold_insert_Permutation (data : list A) : forall rprefix,
  Permutation (fold_left (fun rp x => sort.insert less x rp) data rprefix)
              (data ++ rprefix).
Proof.
  induction data as [|x data IH]; intros rprefix; cbn [fold_left]; [reflexivity|].
  rewrite IH, insert_Permutation. cbn [app]. symmetry. apply Permutation_middle.
Qed.

Lemma insertionSort_Permutation (data : list A) :
  Permutation (sort.insertionSort less data) data.
Proof.
  unfold sort.insertionSort.
  rewrite <- Permutation_rev, fold_insert_Permutation, app_nil_r. reflexivity.
Qed.

Hypothesis less_asym : forall a b, less a b = true -> less b a = false.
Hypothesis less_negtrans :
  forall a b c, less a b = false -> less b c = false -> less a c = false.

Lemma insert_sorted (x : A) (rprefix : list A) :
  StronglySorted (fun a b => less a b = false) rprefix -> StronglySorted (fun a b => less a b = false) (sort.insert less x rprefix).
Proof.
  induction rprefix as [|y r IH]; intros H; cbn [sort.insert].
  - repeat constructor.
  - apply StronglySorted_inv in H as [Hr Hy].
    destruct (less x y) eqn:E.
    + constructor; [now apply IH|].
      eapply Permutation_Forall; [symmetry; apply insert_Permutation|].
      constructor; [now apply less_asym | exact Hy].
    + constructor; [now constructor|].
      constructor; [exact E|].
      eapply Forall_impl; [|exact Hy].
      intros z Hz. now apply (less_negtrans x y z).
Qed.

Lemma fold_insert_sorted (data : list A) : forall rprefix,
  StronglySorted (fun a b => less a b = false) rprefix ->
  StronglySorted (fun a b => less a b = false) (fold_left (fun rp x => sort.insert less x rp) data rprefix).
Proof.
  induction data as [|x data IH]; intros rprefix H; cbn [fold_left]; [exact H|].
  apply IH. now apply insert_sorted.
Qed.

Lemma sorted_snoc (R : A -> A -> Prop) (l : list A) (x : A) :
  StronglySorted R l -> Forall (fun y => R y x) l -> StronglySorted R (l ++ [x]).
Proof.
  induction l as [|y l IH]; intros Hs Hx; cbn [app].
  - repeat constructor.
  - apply StronglySorted_inv in Hs as [Hl Hy].
    apply Forall_cons_iff in Hx as [Hyx Hlx].
    constructor; [now apply IH|].
    apply Forall_app. split; [exact Hy | now constructor].
Qed.

Lemma sorted_rev (R : A -> A -> Prop) (l : list A) :
  StronglySorted R l -> StronglySorted (fun a b => R b a) (rev l).
Proof.
  induction 1 as [|x l Hs IH Hx]; cbn [rev]; [constructor|].
  apply sorted_snoc; [exact IH|].
  apply Forall_rev. exact Hx.
Qed.

Lemma insertionSort_sorted (data : list A) :
  StronglySorted (fun a b => less b a = false) (sort.insertionSort less data).
Proof.
  unfold sort.insertionSort.
  apply (sorted_rev (fun a b => less a b = false)). apply fold_insert_sorted. constructor.
Qed.

End InsertionSort.

Lemma Before_asym (t u : time.Time) :
  time.Before t u = true -> time.Before u t = false.
Proof.
  unfold time.Before. intros H.
  apply orb_true_iff in H. apply orb_false_iff.
  rewrite andb_true_iff, !Z.ltb_lt, Z.eqb_eq in H.
  rewrite andb_false_iff, !Z.ltb_ge, Z.eqb_neq. lia.
Qed.

Lemma Before_negtrans (t u v : time.Time) :
  time.Before t u = false -> time.Before u v = false -> time.Before t v = false.
Proof.
  unfold time.Before. intros H1 H2.
  apply orb_false_iff in H1, H2. apply orb_false_iff.
  rewrite andb_false_iff, !Z.ltb_ge, Z.eqb_neq in *. lia.
Qed.

Lemma After_Before (t u : time.Time) : time.After t u = time.Before u t.
Proof.
  unfold time.After, time.Before. now rewrite (Z.eqb_sym (time.sec t)).
Qed.

Lemma insertionSort_Sessions_ascending (sessions : list Session) :
  ascending (sort.insertionSort Sessions_Less sessions).
Proof.
  apply insertionSort_sorted; unfold Sessions_Less.
  - intros a b. apply Before_asym.
  - intros a b c. apply Before_negtrans.
Qed.

(** ** The flow folder *)

Section StoreFacts.

Context {codec : JSON} {world : World}.

Lemma lookup_In (name : string) (x : node) (l : list (string * node)) :
  lookup name l = Some x -> In (name, x) l.
Proof.
  induction l as [|[n y] l IH]; cbn [lookup]; [discriminate|].
  destruct (String.eqb n name) eqn:E.
  - apply String.eqb_eq in E. intros [= ->]. left. now subst.
  - intros H. right. now apply IH.
Qed.

Lemma lookup_None (name : string) (l : list (string * node)) :
  lookup name l = None <-> ~ In name (map fst l).
Proof.
  induction l as [|[n y] l IH]; cbn [lookup map fst In]; [tauto|].
  destruct (String.eqb n name) eqn:E.
  - apply String.eqb_eq in E. split; [discriminate | intros H; contradiction H; now left].
  - apply String.eqb_neq in E. rewrite IH. tauto.
Qed.

Lemma In_lookup (name : string) (x : node) (l : list (string * node)) :
  NoDup (map fst l) -> In (name, x) l -> lookup name l = Some x.
Proof.
  induction l as [|[n y] l IH]; cbn [lookup map fst]; intros Hnd Hin; [contradiction|].
  apply NoDup_cons_iff in Hnd as [Hn Hnd].
  destruct Hin as [[= -> ->]|Hin].
  - now rewrite String.eqb_refl.
  - destruct (String.eqb n name) eqn:E; [|now apply IH].
    apply String.eqb_eq in E. subst n.
    contradiction Hn. apply (in_map fst) in Hin. exact Hin.
Qed.

Lemma In_listing (fi : FileInfo) (l : list (string * node)) :
  In fi (listing l) <-> exists x, In (Name fi, x) l /\ IsDir fi = is_dir x.
Proof.
  unfold listing. rewrite in_map_iff. split.
  - intros [[n x] [<- H]]. now exists x.
  - intros [x [H E]]. exists (Name fi, x). split; [|exact H].
    destruct fi as [n d]. cbn in *. now subst.
Qed.

Lemma is_dir_false (x : node) : is_dir x = false -> exists b, x = RegularFile b.
Proof. destruct x; [eauto | discriminate]. Qed.

(** *** Looking a session up *)

Lemma FindById_loop_absent (id : string) (l : list FileInfo) (fs : FS) :
  (forall fi, In fi l -> IsDir fi = false ->
     exists fn, parseSessionFileName (Name fi) = inr fn /\ fn_Id fn <> id) ->
  FindById_loop l id fs = (Done None, fs).
Proof.
  induction l as [|fi l IH]; intros H; cbn [FindById_loop]; [reflexivity|].
  destruct (IsDir fi) eqn:D.
  - apply IH. intros x Hx. apply H. now right.
  - destruct (H fi (or_introl eq_refl) D) as [fn [-> Hid]].
    apply String.eqb_neq in Hid. rewrite Hid.
    apply IH. intros x Hx. apply H. now right.
Qed.

Lemma FindById_loop_found (id name : string) (b : bytes) (s : Session)
    (l : list FileInfo) (fs : FS) :
  (forall fi, In fi l -> IsDir fi = false ->
     exists fn, parseSessionFileName (Name fi) = inr fn /\
                (fn_Id fn = id -> Name fi = name)) ->
  (exists fi fn, In fi l /\ IsDir fi = false /\ Name fi = name /\
                 parseSessionFileName name = inr fn /\ fn_Id fn = id) ->
  lookup name (entries fs) = Some (RegularFile b) ->
  json_Unmarshal b = inr s ->
  FindById_loop l id fs = (Done (Some s), mkFS (entries fs) (name :: reads fs)).
Proof.
  intros Hall Hex Hl Hu.
  induction l as [|fi l IH]; cbn [FindById_loop].
  - destruct Hex as [x [fn [[] _]]].
  - destruct (IsDir fi) eqn:D.
    + apply IH.
      * intros x Hx. apply Hall. now right.
      * destruct Hex as [x [fn [[->|Hx] Hrest]]]; [|now exists x, fn].
        destruct Hrest as [D' _]. congruence.
    + destruct (Hall fi (or_introl eq_refl) D) as [fn [Hp Hname]].
      rewrite Hp. destruct (String.eqb (fn_Id fn) id) eqn:E.
      * apply String.eqb_eq in E. rewrite (Hname E).
        unfold bind, os_ReadFile. rewrite Hl.
        unfold rawFileToSession. rewrite Hu. reflexivity.
      * apply String.eqb_neq in E. apply IH.
        -- intros x Hx. apply Hall. now right.
        -- destruct Hex as [x [fn' [[->|Hx] Hrest]]]; [|now exists x, fn'].
           destruct Hrest as [_ [Hn [Hp' Hid]]]. rewrite Hn in Hp. congruence.
Qed.

(** *** Writing a session *)

Lemma replace_In (name : string) (b : bytes) (l : list (string * node)) n x :
  In (n, x) (replace name b l) ->
  (n = name /\ x = RegularFile b) \/ In (n, x) l.
Proof.
  induction l as [|[m y] l IH]; cbn [replace]; [tauto|].
  destruct (String.eqb m name) eqn:E.
  - apply String.eqb_eq in E. subst m.
    intros [[= <- <-]|H]; [now left | right; now right].
  - intros [H|H]; [right; now left|].
    destruct (IH H) as [?|?]; [now left | right; now right].
Qed.

Lemma replace_lookup (name : string) (b : bytes) (l : list (string * node)) y :
  lookup name l = Some y -> lookup name (replace name b l) = Some (RegularFile b).
Proof.
  induction l as [|[m z] l IH]; cbn [replace lookup]; [discriminate|].
  destruct (String.eqb m name) eqn:E; cbn [lookup]; rewrite E; [reflexivity | exact IH].
Qed.

Lemma replace_names (name : string) (b : bytes) (l : list (string * node)) :
  map fst (replace name b l) = map fst l.
Proof.
  induction l as [|[m z] l IH]; cbn [replace map fst]; [reflexivity|].
  destruct (String.eqb m name); cbn [map fst]; [reflexivity | now rewrite IH].
Qed.

Lemma lookup_app_new (name : string) (v : node) (l : list (string * node)) :
  lookup name l = None -> lookup name (l ++ [(name, v)]) = Some v.
Proof.
  induction l as [|[m z] l IH]; cbn [app lookup].
  - now rewrite String.eqb_refl.
  - destruct (String.eqb m name); [discriminate | exact IH].
Qed.

Lemma ContainsByte_false (s : string) (c : ascii) :
  strings.ContainsByte s c = false <-> strings.Count s c = 0%nat.
Proof.
  unfold strings.ContainsByte. rewrite negb_false_iff. apply Nat.eqb_eq.
Qed.

Lemma FormatInt_no_separator (z : Z) : strings.Count (strconv.FormatInt z) "/" = 0%nat.
Proof.
  unfold strconv.FormatInt. destruct (z <? 0) eqn:E.
  - apply Z.ltb_lt in E. cbn [strings.Count].
    rewrite (allDigits_Count _ "/"); [reflexivity| |reflexivity].
    apply formatBits_allDigits; [lia | reflexivity].
  - apply Z.ltb_ge in E. apply allDigits_Count; [|reflexivity].
    apply formatBits_allDigits; [lia | reflexivity].
Qed.

Lemma getSessionFileName_flat (s : Session) :
  strings.ContainsByte (Id s) "/" = false -> flat (getSessionFileName s) = true.
Proof.
  intros H. apply ContainsByte_false in H.
  unfold flat. apply negb_true_iff, ContainsByte_false.
  unfold getSessionFileName. rewrite String_Count. cbn [fn_Id fn_StartTime].
  unfold StrippedProject.
  rewrite H, (stripNonAlnum_Count _ "/" eq_refl), FormatInt_no_separator.
  reflexivity.
Qed.

(** What a successful [Save] leaves behind, under a name without path
    separator. *)
Lemma Save_written (s : Session) (fs fs' : FS) :
  flat (getSessionFileName s) = true ->
  Save s fs = (Done None, fs') ->
  exists b,
    json_MarshalIndent s = inr b /\
    reads fs' = reads fs /\
    lookup (getSessionFileName s) (entries fs') = Some (RegularFile b) /\
    (forall n x, In (n, x) (entries fs') ->
       (n = getSessionFileName s /\ x = RegularFile b) \/ In (n, x) (entries fs)) /\
    ((entries fs' = replace (getSessionFileName s) b (entries fs) /\
      exists old, lookup (getSessionFileName s) (entries fs) = Some (RegularFile old)) \/
     (entries fs' = entries fs ++ [(getSessionFileName s, RegularFile b)] /\
      lookup (getSessionFileName s) (entries fs) = None)).
Proof.
  intros Hflat.
  unfold Save. destruct (json_MarshalIndent s) as [e|b]; [discriminate|].
  unfold bind, os_WriteFile, ret. rewrite Hflat.
  destruct (lookup (getSessionFileName s) (entries fs)) as [[old|]|] eqn:L;
    [| discriminate |]; intros [= <-]; exists b; cbn [entries reads].
  - repeat split; [now apply (replace_lookup _ _ _ _ L) | apply replace_In | left; eauto].
  - repeat split; [now apply lookup_app_new | | now right].
    intros n x H. apply in_app_or in H as [H|[[= <- <-]|[]]]; [now right | now left].
Qed.

Lemma Save_succeeds (s : Session) (b : bytes) (fs : FS) :
  json_MarshalIndent s = inr b ->
  flat (getSessionFileName s) = true ->
  lookup (getSessionFileName s) (entries fs) <> Some Directory ->
  exists fs', Save s fs = (Done None, fs').
Proof.
  intros Hm Hf Hd. unfold Save, bind, os_WriteFile, ret. rewrite Hm, Hf.
  destruct (lookup (getSessionFileName s) (entries fs)) as [[old|]|]; eauto.
  contradiction Hd; reflexivity.
Qed.

Lemma getSessionFileName_decodes (s : Session) :
  strings.ContainsByte (Id s) "-" = false ->
  0 <= time.Time_Unix (StartTime s) ->
  idOf (getSessionFileName s) (Id s).
Proof.
  intros Hid Ht. apply ContainsByte_false in Hid.
  unfold idOf, getSessionFileName. rewrite parse_String by assumption.
  eexists. split; reflexivity.
Qed.

(** C1, amended.  Take a folder in which every file name decodes, and
    a session [s] whose id has neither ['-'] nor a path separator,
    whose start time is not before the Unix epoch, whose JSON form
    decodes back to [s], and whose id no file of the folder other than
    [s]'s own carries.  After [Save s] has succeeded, [FindById (Id s)]
    returns [s] itself, sub-second part of the start time included:
    the session is decoded from the body of the file, and only the file
    name holds the truncated time.  The one file read is that of
    [s]. *)
Theorem Save_then_FindById (s : Session) (fs fs' : FS) :
  (forall n b, In (n, RegularFile b) (entries fs) -> decodes n) ->
  strings.ContainsByte (Id s) "-" = false ->
  strings.ContainsByte (Id s) "/" = false ->
  0 <= time.Time_Unix (StartTime s) ->
  (forall b, json_MarshalIndent s = inr b -> json_Unmarshal b = inr s) ->
  (forall n b, In (n, RegularFile b) (entries fs) -> idOf n (Id s) ->
     n = getSessionFileName s) ->
  Save s fs = (Done None, fs') ->
  FindById (Id s) fs' =
  (Done (Some s), mkFS (entries fs') (getSessionFileName s :: reads fs')).
Proof.
  intros Hfiles Hid Hsep Ht Hjson Huniq Hsave.
  destruct (Save_written _ _ _ (getSessionFileName_flat s Hsep) Hsave)
    as [b [Hm [_ [Hl [Hin _]]]]].
  pose proof (getSessionFileName_decodes s Hid Ht) as [fn0 [Hp0 Hid0]].
  unfold FindById, bind, readFlowFolder.
  apply (FindById_loop_found _ _ b s); [| |exact Hl|now apply Hjson].
  - intros fi Hfi D. apply In_listing in Hfi as [x [Hx Ex]].
    rewrite D in Ex. symmetry in Ex. apply is_dir_false in Ex as [b' ->].
    destruct (Hin _ _ Hx) as [[-> _]|Hold].
    + exists fn0. split; [exact Hp0 | reflexivity].
    + destruct (Hfiles _ _ Hold) as [fn Hp].
      exists fn. split; [exact Hp|]. intros E.
      apply (Huniq _ _ Hold). exists fn. now split.
  - exists (mkFileInfo (getSessionFileName s) false), fn0.
    split; [|now repeat split].
    apply In_listing. exists (RegularFile b). split; [|reflexivity].
    apply lookup_In. exact Hl.
Qed.

(** *** Deleting a session *)

Lemma remove_middle (name : string) (x : node) (l1 l2 : list (string * node)) :
  ~ In name (map fst l1) ->
  remove name (l1 ++ (name, x) :: l2) = l1 ++ l2.
Proof.
  induction l1 as [|[m y] l1 IH]; cbn [app remove map fst In]; intros H.
  - now rewrite String.eqb_refl.
  - destruct (String.eqb m name) eqn:E.
    + apply String.eqb_eq in E. contradiction H. now left.
    + rewrite IH; [reflexivity|]. intros N. apply H. now right.
Qed.

Lemma Delete_loop_absent (id : string) (l : list FileInfo) (fs : FS) :
  (forall fi, In fi l -> IsDir fi = false ->
     exists fn, parseSessionFileName (Name fi) = inr fn /\ fn_Id fn <> id) ->
  Delete_loop l id fs = (Done (Some (NotFoundError id)), fs).
Proof.
  induction l as [|fi l IH]; intros H; cbn [Delete_loop]; [reflexivity|].
  destruct (IsDir fi) eqn:D.
  - apply IH. intros x Hx. apply H. now right.
  - destruct (H fi (or_introl eq_refl) D) as [fn [-> Hid]].
    apply String.eqb_neq in Hid. rewrite Hid.
    apply IH. intros x Hx. apply H. now right.
Qed.

Lemma Delete_loop_skip (id : string) (pre rest : list FileInfo) (fs : FS) :
  (forall fi, In fi pre -> IsDir fi = false ->
     exists fn, parseSessionFileName (Name fi) = inr fn /\ fn_Id fn <> id) ->
  Delete_loop (pre ++ rest) id fs = Delete_loop rest id fs.
Proof.
  induction pre as [|fi pre IH]; intros H; cbn [app Delete_loop]; [reflexivity|].
  destruct (IsDir fi) eqn:D.
  - apply IH. intros x Hx. apply H. now right.
  - destruct (H fi (or_introl eq_refl) D) as [fn [-> Hid]].
    apply String.eqb_neq in Hid. rewrite Hid.
    apply IH. intros x Hx. apply H. now right.
Qed.

Lemma idOf_dec (name id : string) : decodes name -> idOf name id \/ ~ idOf name id.
Proof.
  intros [fn Hp]. destruct (String.eqb (fn_Id fn) id) eqn:E.
  - apply String.eqb_eq in E. left. now exists fn.
  - apply String.eqb_neq in E. right. intros [fn' [Hp' Hid]]. congruence.
Qed.

Lemma other_id (name id : string) :
  decodes name -> ~ idOf name id ->
  exists fn, parseSessionFileName name = inr fn /\ fn_Id fn <> id.
Proof.
  intros [fn Hp] H. exists fn. split; [exact Hp|].
  intros E. apply H. now exists fn.
Qed.

(** C7, amended.  Take a folder in which every file name decodes.
    [Delete id] without a file of that id returns the error
    [NotFoundError id] and leaves the flow folder as it was.  When the
    names of the folder are distinct and one file only carries the id,
    [Delete id] removes that one file and no other, and [FindById id]
    then finds nothing. *)
Theorem Delete_by_id (id : string) (fs : FS) :
  (forall n b, In (n, RegularFile b) (entries fs) -> decodes n) ->
  ((forall n b, In (n, RegularFile b) (entries fs) -> ~ idOf n id) ->
   Delete id fs = (Done (Some (NotFoundError id)), fs)) /\
  (NoDup (map fst (entries fs)) ->
   (forall n1 b1 n2 b2,
      In (n1, RegularFile b1) (entries fs) -> In (n2, RegularFile b2) (entries fs) ->
      idOf n1 id -> idOf n2 id -> n1 = n2) ->
   forall n b, In (n, RegularFile b) (entries fs) -> idOf n id ->
   exists l1 l2,
     entries fs = l1 ++ (n, RegularFile b) :: l2 /\
     Delete id fs = (Done None, mkFS (l1 ++ l2) (reads fs)) /\
     FindById id (mkFS (l1 ++ l2) (reads fs)) =
     (Done None, mkFS (l1 ++ l2) (reads fs))).
Proof.
  intros Hfiles. split.
  - intros Hnone. unfold Delete, bind, readFlowFolder.
    apply Delete_loop_absent. intros fi Hfi D.
    apply In_listing in Hfi as [x [Hx Ex]].
    rewrite D in Ex. symmetry in Ex. apply is_dir_false in Ex as [b ->].
    apply other_id; [apply (Hfiles _ _ Hx) | apply (Hnone _ _ Hx)].
  - intros Hnd Huniq n b Hin Hid.
    destruct (in_split _ _ Hin) as [l1 [l2 E]]. exists l1, l2.
    split; [exact E|].
    assert (Hn : ~ In n (map fst l1) /\ ~ In n (map fst l2)).
    { rewrite E, map_app in Hnd. cbn [map fst] in Hnd.
      apply NoDup_remove_2 in Hnd. rewrite in_app_iff in Hnd. tauto. }
    assert (Hothers : forall fi, In fi (listing (l1 ++ l2)) -> IsDir fi = false ->
              exists fn, parseSessionFileName (Name fi) = inr fn /\ fn_Id fn <> id).
    { intros fi Hfi D. apply In_listing in Hfi as [x [Hx Ex]].
      rewrite D in Ex. symmetry in Ex. apply is_dir_false in Ex as [b' ->].
      assert (Hx' : In (Name fi, RegularFile b') (entries fs)).
      { rewrite E. apply in_app_or in Hx. apply in_or_app.
        destruct Hx; [now left | right; now right]. }
      apply other_id; [apply (Hfiles _ _ Hx')|].
      intros Hid'. pose proof (Huniq _ _ _ _ Hx' Hin Hid' Hid) as En.
      apply (in_map fst) in Hx. rewrite map_app, in_app_iff in Hx.
      cbn [fst] in Hx. rewrite En in Hx. tauto. }
    split.
    + unfold Delete, bind, readFlowFolder. rewrite E at 1.
      unfold listing. rewrite map_app. cbn [map].
      rewrite Delete_loop_skip.
      * cbn [Delete_loop fileInfoOf fst snd is_dir IsDir Name].
        destruct Hid as [fn [-> Hid]].
        apply String.eqb_eq in Hid. rewrite Hid.
        unfold bind, os_Remove. rewrite (In_lookup _ _ _ Hnd Hin).
        rewrite E, remove_middle by apply Hn. reflexivity.
      * intros fi Hfi. apply Hothers. unfold listing. rewrite map_app.
        apply in_or_app. now left.
    + unfold FindById, bind, readFlowFolder. cbn [entries].
      now apply FindById_loop_absent.
Qed.

(** *** Listing sessions *)

Lemma readSessions_Done (fileInfos : list FileInfo) :
  forall sessions fs l fs',
  readSessions fileInfos sessions fs = (Done l, fs') ->
  fs' = mkFS (entries fs) (rev (map Name (filter notDir fileInfos)) ++ reads fs).
Proof.
  induction fileInfos as [|fi rest IH]; intros sessions fs l fs';
    cbn [readSessions filter map rev app].
  - intros [= _ <-]. now destruct fs.
  - unfold notDir at 1. destruct (IsDir fi) eqn:D; cbn [negb]; [apply IH|].
    unfold bind, os_ReadFile.
    destruct (lookup (Name fi) (entries fs)) as [[data|]|]; try discriminate.
    destruct (rawFileToSession data) as [e|session]; [discriminate|].
    intros H. apply IH in H. rewrite H. cbn [entries reads map rev].
    now rewrite <- app_assoc.
Qed.

Lemma readSessions_Fatal (fileInfos : list FileInfo) :
  forall sessions fs f fs',
  readSessions fileInfos sessions fs = (Fatal f, fs') ->
  forall name err, f <> FatalParse name err.
Proof.
  induction fileInfos as [|fi rest IH]; intros sessions fs f fs';
    cbn [readSessions]; [discriminate|].
  destruct (IsDir fi); [apply IH|].
  unfold bind, os_ReadFile.
  destruct (lookup (Name fi) (entries fs)) as [[data|]|];
    try (intros [= <- _]; discriminate).
  destruct (rawFileToSession data) as [e|session]; [intros [= <- _]; discriminate|].
  apply IH.
Qed.

Lemma readSessions_returns (fileInfos : list FileInfo) :
  forall sessions fs,
  (forall fi, In fi fileInfos -> IsDir fi = false ->
     exists b s, lookup (Name fi) (entries fs) = Some (RegularFile b) /\
                 json_Unmarshal b = inr s) ->
  exists l fs', readSessions fileInfos sessions fs = (Done l, fs').
Proof.
  induction fileInfos as [|fi rest IH]; intros sessions fs H; cbn [readSessions].
  - now exists sessions, fs.
  - destruct (IsDir fi) eqn:D.
    + apply IH. intros x Hx. apply H. now right.
    + destruct (H fi (or_introl eq_refl) D) as [b [s [Hl Hu]]].
      unfold bind, os_ReadFile, rawFileToSession. rewrite Hl, Hu.
      apply IH. cbn [entries]. intros x Hx. apply H. now right.
Qed.

Lemma FindAllSessions_eq (filters : option SessionsFilters) (fs : FS) :
  FindAllSessions filters fs =
  match selectEntries filters (listing (entries fs)) with
  | Fatal f => (Fatal f, fs)
  | Done kept =>
      match readSessions kept [] fs with
      | (Done sessions, fs') => (Done (sort.insertionSort Sessions_Less sessions), fs')
      | (Fatal f, fs') => (Fatal f, fs')
      end
  end.
Proof.
  unfold FindAllSessions, selectEntries, bind, readFlowFolder, lift, ret.
  destruct filters as [filters|]; [|reflexivity].
  destruct (negb (IsZero (Timerange filters)));
    [destruct (filterByTimeRange (listing (entries fs)) (Timerange filters))|];
    cbn [outcome_bind]; try reflexivity;
    destruct (negb (String.eqb (filter_Project filters) EmptyString));
    try reflexivity;
    match goal with
    | |- context [filterByProject ?l ?p] => destruct (filterByProject l p)
    end; reflexivity.
Qed.

Lemma selectEntries_incl (filters : option SessionsFilters) (fileInfos kept : list FileInfo) :
  selectEntries filters fileInfos = Done kept -> incl kept fileInfos.
Proof.
  unfold selectEntries. destruct filters as [filters|]; [|intros [= <-]; apply incl_refl].
  rewrite filterByTimeRange_eq.
  destruct (negb (IsZero (Timerange filters))).
  - destruct (firstUndecodable fileInfos) eqn:U; [discriminate|]. cbn [outcome_bind].
    destruct (negb (String.eqb (filter_Project filters) EmptyString)).
    + rewrite filterByProject_eq, firstUndecodable_filter by exact U.
      intros [= <-]. intros x Hx.
      apply filter_In in Hx as [Hx _]. now apply filter_In in Hx as [Hx _].
    + intros [= <-]. intros x Hx. now apply filter_In in Hx as [Hx _].
  - cbn [outcome_bind].
    destruct (negb (String.eqb (filter_Project filters) EmptyString)).
    + rewrite filterByProject_eq. destruct (firstUndecodable fileInfos); [discriminate|].
      intros [= <-]. intros x Hx. now apply filter_In in Hx as [Hx _].
    + intros [= <-]. apply incl_refl.
Qed.

Lemma selectEntries_returns (filters : option SessionsFilters) (fileInfos : list FileInfo) :
  firstUndecodable fileInfos = None ->
  exists kept, selectEntries filters fileInfos = Done kept.
Proof.
  intros U. unfold selectEntries. destruct filters as [filters|]; [|eauto].
  rewrite filterByTimeRange_eq, U.
  destruct (negb (IsZero (Timerange filters))); cbn [outcome_bind];
    destruct (negb (String.eqb (filter_Project filters) EmptyString)); eauto;
    rewrite filterByProject_eq, ?firstUndecodable_filter by exact U; rewrite ?U; eauto.
Qed.

(** C6.  Whatever the flow folder holds and whatever the filter, a list
    that [FindAllSessions] returns is sorted non-decreasing by start
    time; and in a state of the store without subdirectories it does
    return one. *)
Theorem FindAllSessions_ascending (filters : option SessionsFilters) (fs : FS) :
  (forall l fs', FindAllSessions filters fs = (Done l, fs') -> ascending l) /\
  (storeState fs -> (forall n, ~ In (n, Directory) (entries fs)) ->
   exists l fs', FindAllSessions filters fs = (Done l, fs')).
Proof.
  rewrite FindAllSessions_eq. split.
  - intros l fs'.
    destruct (selectEntries filters (listing (entries fs))) as [kept|f]; [|discriminate].
    destruct (readSessions kept [] fs) as [[sessions|f] fs1]; [|discriminate].
    intros [= <- _]. apply insertionSort_Sessions_ascending.
  - intros [Hnd [Hfiles _]] Hnodir.
    assert (Hfile : forall fi, In fi (listing (entries fs)) ->
              exists b, In (Name fi, RegularFile b) (entries fs)).
    { intros fi Hfi. apply In_listing in Hfi as [[b|] [Hx _]]; [eauto|].
      now apply Hnodir in Hx. }
    destruct (selectEntries_returns filters (listing (entries fs))) as [kept Hk].
    { apply firstUndecodable_None. intros fi Hfi.
      destruct (Hfile fi Hfi) as [b Hb]. apply (Hfiles _ _ Hb). }
    rewrite Hk.
    destruct (readSessions_returns kept [] fs) as [l [fs' Hr]].
    { intros fi Hfi _. apply (selectEntries_incl _ _ _ Hk) in Hfi.
      destruct (Hfile fi Hfi) as [b Hb].
      destruct (Hfiles _ _ Hb) as [_ [s [_ Hu]]].
      exists b, s. split; [now apply In_lookup | exact Hu]. }
    rewrite Hr. eauto.
Qed.

Lemma selectEntries_both (project : string) (r : TimeRange) (fileInfos : list FileInfo) :
  project <> EmptyString -> IsZero r = false ->
  selectEntries (Some (mkSessionsFilters r project)) fileInfos =
  outcome_bind (filterByProject fileInfos project)
               (fun byProject => filterByTimeRange byProject r).
Proof.
  intros Hp Hr. unfold selectEntries. cbn [Timerange filter_Project].
  apply String.eqb_neq in Hp. rewrite Hp, Hr. cbn [negb].
  rewrite filterByTimeRange_eq, filterByProject_eq.
  destruct (firstUndecodable fileInfos) eqn:U; [reflexivity|]. cbn [outcome_bind].
  rewrite filterByTimeRange_eq, filterByProject_eq.
  rewrite !firstUndecodable_filter by exact U.
  now rewrite filter_comm.
Qed.

(** C9.  With a project and a time range in the filter,
    [FindAllSessions] is the project filter followed by the time-range
    filter on the listing, both on file names alone, followed by the
    reading of the entries that are left.  (The source calls the two
    filters the other way round; the outcome is the same, fatal exits
    included.)  When a filter exits, no file has been read.  Otherwise
    the surviving entries that are no directories are read, and none
    else; an exit while reading them is the exit of the call, and when
    all are read the call returns the sessions read, rearranged into
    non-decreasing order of start time. *)
Theorem FindAllSessions_filters_before_reading
    (project : string) (r : TimeRange) (fs : FS) :
  project <> EmptyString -> IsZero r = false ->
  match outcome_bind (filterByProject (listing (entries fs)) project)
                     (fun byProject => filterByTimeRange byProject r) with
  | Fatal f =>
      FindAllSessions (Some (mkSessionsFilters r project)) fs = (Fatal f, fs)
  | Done kept =>
      match readSessions kept [] fs with
      | (Done sessions, fs') =>
          exists l,
            FindAllSessions (Some (mkSessionsFilters r project)) fs = (Done l, fs') /\
            Permutation l sessions /\ ascending l /\
            fs' = mkFS (entries fs) (rev (map Name (filter notDir kept)) ++ reads fs)
      | (Fatal f, fs') =>
          FindAllSessions (Some (mkSessionsFilters r project)) fs = (Fatal f, fs')
      end
  end.
Proof.
  intros Hp Hr. rewrite FindAllSessions_eq, (selectEntries_both _ _ _ Hp Hr).
  destruct (outcome_bind _ _) as [kept|f]; [|reflexivity].
  destruct (readSessions kept [] fs) as [[sessions|f] fs1] eqn:R; [|reflexivity].
  exists (sort.insertionSort Sessions_Less sessions).
  split; [reflexivity|]. split; [apply insertionSort_Permutation|].
  split; [apply insertionSort_Sessions_ascending|].
  now apply readSessions_Done in R.
Qed.

Lemma lookup_skip (n name : string) (x : node) (l1 l2 : list (string * node)) :
  n <> name -> lookup n (l1 ++ (name, x) :: l2) = lookup n (l1 ++ l2).
Proof.
  intros Hn. induction l1 as [|[m y] l1 IH]; cbn [app lookup].
  - destruct (String.eqb name n) eqn:E; [|reflexivity].
    apply String.eqb_eq in E. congruence.
  - now rewrite IH.
Qed.

Lemma readSessions_skip (d : FileInfo) (pre rest : list FileInfo) :
  IsDir d = true ->
  forall sessions fs,
  readSessions (pre ++ d :: rest) sessions fs = readSessions (pre ++ rest) sessions fs.
Proof.
  intros Hd. induction pre as [|fi pre IH]; intros sessions fs; cbn [app readSessions].
  - now rewrite Hd.
  - destruct (IsDir fi); [apply IH|].
    unfold bind. destruct (os_ReadFile (Name fi) fs) as [[[e|data]|f] fs1];
      try reflexivity.
    destruct (rawFileToSession data); [reflexivity | apply IH].
Qed.

Lemma readSessions_congr (fileInfos : list FileInfo) :
  forall sessions fs1 fs2,
  reads fs1 = reads fs2 ->
  (forall fi, In fi fileInfos -> IsDir fi = false ->
     lookup (Name fi) (entries fs1) = lookup (Name fi) (entries fs2)) ->
  fst (readSessions fileInfos sessions fs1) = fst (readSessions fileInfos sessions fs2) /\
  reads (snd (readSessions fileInfos sessions fs1)) =
  reads (snd (readSessions fileInfos sessions fs2)).
Proof.
  induction fileInfos as [|fi rest IH]; intros sessions fs1 fs2 Hr Hl;
    cbn [readSessions].
  - now split.
  - destruct (IsDir fi) eqn:D.
    + apply IH; [exact Hr|]. intros x Hx. apply Hl. now right.
    + unfold bind, os_ReadFile. cbv beta zeta.
      rewrite <- (Hl fi (or_introl eq_refl) D), Hr.
      destruct (lookup (Name fi) (entries fs1)) as [[data|]|];
        try (unfold log_Fatal; now split).
      destruct (rawFileToSession data); [unfold log_Fatal; now split|].
      apply IH; [reflexivity|]. cbn [entries].
      intros x Hx. apply Hl. now right.
Qed.

(** C10.  The filters decode the name of every entry of the listing,
    subdirectories included, so a subdirectory whose name does not
    decode makes [FindAllSessions] exit in a filter, before any file is
    read, as soon as a project or a time range is asked for; without
    filter the subdirectory is passed over, and the call ends as it
    does on the folder without it. *)
Theorem FindAllSessions_subdirectory
    (name : string) (err : error) (l1 l2 : list (string * node)) (rd : list string) :
  parseSessionFileName name = inl err ->
  ~ In name (map fst (l1 ++ l2)) ->
  (forall filters,
     IsZero (Timerange filters) = false \/ filter_Project filters <> EmptyString ->
     exists f,
       FindAllSessions (Some filters) (mkFS (l1 ++ (name, Directory) :: l2) rd) =
       (Fatal f, mkFS (l1 ++ (name, Directory) :: l2) rd)) /\
  fst (FindAllSessions None (mkFS (l1 ++ (name, Directory) :: l2) rd)) =
  fst (FindAllSessions None (mkFS (l1 ++ l2) rd)) /\
  reads (snd (FindAllSessions None (mkFS (l1 ++ (name, Directory) :: l2) rd))) =
  reads (snd (FindAllSessions None (mkFS (l1 ++ l2) rd))).
Proof.
  intros Herr Hfresh. split.
  - intros filters Hf. rewrite FindAllSessions_eq. cbn [entries].
    destruct (firstUndecodable_Some (listing (l1 ++ (name, Directory) :: l2))
                (mkFileInfo name true) err) as [f Hfirst]; [|exact Herr|].
    { apply In_listing. exists Directory. split; [|reflexivity].
      apply in_or_app. right. now left. }
    exists f. unfold selectEntries.
    rewrite filterByTimeRange_eq, Hfirst.
    destruct (negb (IsZero (Timerange filters))) eqn:Z; [reflexivity|].
    cbn [outcome_bind]. rewrite filterByProject_eq, Hfirst.
    destruct (negb (String.eqb (filter_Project filters) EmptyString)) eqn:P;
      [reflexivity|].
    apply negb_false_iff in Z, P. apply String.eqb_eq in P.
    destruct Hf; congruence.
  - rewrite !FindAllSessions_eq. cbn [selectEntries entries].
    unfold listing. rewrite !map_app. cbn [map].
    rewrite readSessions_skip by reflexivity.
    rewrite <- map_app. fold (listing (l1 ++ l2)).
    destruct (readSessions_congr (listing (l1 ++ l2)) []
                (mkFS (l1 ++ (name, Directory) :: l2) rd) (mkFS (l1 ++ l2) rd))
      as [Ho Hr]; [reflexivity| |].
    { intros fi Hfi _. cbn [entries]. apply lookup_skip. intros E.
      apply Hfresh. apply In_listing in Hfi as [x [Hx _]].
      apply (in_map fst) in Hx. cbn [fst] in Hx. now rewrite E in Hx. }
    destruct (readSessions (listing (l1 ++ l2)) [] (mkFS (l1 ++ (name, Directory) :: l2) rd))
      as [[ss|f] fsa];
    destruct (readSessions (listing (l1 ++ l2)) [] (mkFS (l1 ++ l2) rd))
      as [[ss'|f'] fsb]; cbn [fst snd] in *; try discriminate;
    injection Ho as <-; now split.
Qed.

(** *** The states of the store are kept *)

Lemma emptyFS_storeState : storeState emptyFS.
Proof.
  split; [constructor|]. split; [intros n b []|intros n1 b1 n2 b2 id []].
Qed.

Lemma idOf_fun (name id id' : string) : idOf name id -> idOf name id' -> id = id'.
Proof. intros [fn [Hp <-]] [fn' [Hp' <-]]. congruence. Qed.

Lemma Save_storeState (s : Session) (fs fs' : FS) :
  storeState fs ->
  strings.ContainsByte (Id s) "-" = false ->
  strings.ContainsByte (Id s) "/" = false ->
  0 <= time.Time_Unix (StartTime s) ->
  (forall b, json_MarshalIndent s = inr b -> json_Unmarshal b = inr s) ->
  (forall n b, In (n, RegularFile b) (entries fs) -> idOf n (Id s) ->
     n = getSessionFileName s) ->
  Save s fs = (Done None, fs') ->
  storeState fs'.
Proof.
  intros [Hnd [Hfiles Huniq]] Hid Hsep Ht Hjson Hown Hsave.
  destruct (Save_written _ _ _ (getSessionFileName_flat s Hsep) Hsave)
    as [b [Hm [_ [Hl [Hin Hshape]]]]].
  pose proof (getSessionFileName_decodes s Hid Ht) as Hdec.
  split; [|split].
  - destruct Hshape as [[-> _]|[-> Hnone]].
    + now rewrite replace_names.
    + rewrite map_app. cbn [map fst].
      eapply Permutation_NoDup; [apply Permutation_cons_append|].
      constructor; [now apply lookup_None | exact Hnd].
  - intros n b' H. destruct (Hin _ _ H) as [[-> [= ->]]|Hold]; [|now apply Hfiles].
    split.
    + destruct Hdec as [fn [Hp _]]. now exists fn.
    + exists s. split; [reflexivity | now apply Hjson].
  - intros n1 b1 n2 b2 id H1 H2 I1 I2.
    destruct (Hin _ _ H1) as [[-> _]|O1], (Hin _ _ H2) as [[-> _]|O2].
    + reflexivity.
    + symmetry. apply (Hown _ _ O2). now rewrite (idOf_fun _ _ _ Hdec I1).
    + apply (Hown _ _ O1). now rewrite (idOf_fun _ _ _ Hdec I2).
    + now apply (Huniq _ _ _ _ id O1 O2).
Qed.

Lemma remove_one_storeState (l1 l2 : list (string * node)) (e : string * node)
    (rd rd' : list string) :
  storeState (mkFS (l1 ++ e :: l2) rd) -> storeState (mkFS (l1 ++ l2) rd').
Proof.
  intros [Hnd [Hfiles Huniq]]. unfold storeState. cbn [entries] in *.
  assert (Hsub : forall x, In x (l1 ++ l2) -> In x (l1 ++ e :: l2)).
  { intros x Hx. apply in_app_or in Hx. apply in_or_app.
    destruct Hx; [now left | right; now right]. }
  split; [|split].
  - rewrite map_app in *. cbn [map] in Hnd. now apply NoDup_remove_1 in Hnd.
  - intros n b H. apply Hfiles. now apply Hsub.
  - intros n1 b1 n2 b2 id H1 H2. apply (Huniq n1 b1 n2 b2 id); now apply Hsub.
Qed.

(** *** The most recent session *)

Lemma decodeFileNames_eq (l : list FileInfo) : forall acc,
  (forall fi, In fi l -> IsDir fi = false -> decodes (Name fi)) ->
  exists fns,
    decodeFileNames l acc = Done (acc ++ fns) /\
    forall fn, In fn fns <->
      exists fi, In fi l /\ IsDir fi = false /\ parseSessionFileName (Name fi) = inr fn.
Proof.
  induction l as [|fi l IH]; intros acc H; cbn [decodeFileNames].
  - exists []. rewrite app_nil_r. split; [reflexivity|].
    intros fn. split; [intros [] | intros [x [[] _]]].
  - destruct (IsDir fi) eqn:D; cbn [negb].
    + destruct (IH acc) as [fns [E Hfns]]; [intros x Hx; apply H; now right|].
      exists fns. split; [exact E|]. intros fn. rewrite Hfns.
      split; intros [x [Hx Hrest]].
      * exists x. split; [now right | exact Hrest].
      * destruct Hx as [->|Hx]; [destruct Hrest; congruence|].
        exists x. now split.
    + destruct (H fi (or_introl eq_refl) D) as [fn0 Hp]. rewrite Hp.
      destruct (IH (acc ++ [fn0])) as [fns [E Hfns]]; [intros x Hx; apply H; now right|].
      exists (fn0 :: fns). split; [now rewrite E, <- app_assoc|].
      intros fn. cbn [In]. rewrite Hfns. split.
      * intros [<-|[x [Hx Hrest]]]; [exists fi; split; [now left | now split]|].
        exists x. split; [now right | exact Hrest].
      * intros [x [[->|Hx] [Dx Px]]]; [left; congruence | right; now exists x].
Qed.

Lemma Before_irrefl (t : time.Time) : time.Before t t = false.
Proof.
  unfold time.Before. rewrite Z.ltb_irrefl, Z.ltb_irrefl, andb_false_r. reflexivity.
Qed.

Lemma insertionSort_later_head (fns : list SessionFilename) first rest :
  sort.insertionSort later fns = first :: rest ->
  In first fns /\ forall fn, In fn fns -> later fn first = false.
Proof.
  intros E.
  pose proof (insertionSort_Permutation later fns) as P. rewrite E in P.
  assert (S : StronglySorted (fun a b => later b a = false) (first :: rest)).
  { rewrite <- E. apply insertionSort_sorted; unfold later.
    - intros a b. apply Before_asym.
    - intros a b c H1 H2. exact (Before_negtrans _ _ _ H2 H1). }
  split; [apply (Permutation_in _ P); now left|].
  intros fn Hfn. apply (Permutation_in _ (Permutation_sym P)) in Hfn.
  destruct Hfn as [<-|Hfn]; [apply Before_irrefl|].
  apply StronglySorted_inv in S as [_ S].
  rewrite Forall_forall in S. now apply S.
Qed.

Lemma FindLastSession_entries (fs fs1 : FS) (o : outcome (option Session)) :
  FindLastSession fs = (o, fs1) -> entries fs1 = entries fs.
Proof.
  unfold FindLastSession, bind, readFlowFolder, lift, os_ReadFile, log_Fatal, ret.
  destruct (decodeFileNames (listing (entries fs)) []) as [fns|f];
    [|now intros [= _ <-]].
  destruct (Nat.eqb (List.length fns) 0); [now intros [= _ <-]|].
  destruct (sort.insertionSort later fns) as [|first rest]; [now intros [= _ <-]|].
  destruct (lookup (SessionFilename_String first) (entries fs)) as [[data|]|];
    try (now intros [= _ <-]).
  destruct (rawFileToSession data); now intros [= _ <-].
Qed.

Lemma FindLastSession_found (fs : FS) :
  NoDup (map fst (entries fs)) ->
  (forall n b, In (n, RegularFile b) (entries fs) ->
     decodes n /\ exists s, n = getSessionFileName s /\ json_Unmarshal b = inr s) ->
  (exists n0 b0, In (n0, RegularFile b0) (entries fs)) ->
  exists n b fn s,
    In (n, RegularFile b) (entries fs) /\
    parseSessionFileName n = inr fn /\
    n = getSessionFileName s /\
    json_Unmarshal b = inr s /\
    (forall n' b' fn',
       In (n', RegularFile b') (entries fs) ->
       parseSessionFileName n' = inr fn' ->
       time.After (fn_StartTime fn') (fn_StartTime fn) = false) /\
    FindLastSession fs = (Done (Some s), mkFS (entries fs) (n :: reads fs)).
Proof.
  intros Hnd Hfiles [n0 [b0 H0]].
  destruct (decodeFileNames_eq (listing (entries fs)) []) as [fns [E Hfns]].
  { intros fi Hfi D. apply In_listing in Hfi as [x [Hx Ex]].
    rewrite D in Ex. symmetry in Ex. apply is_dir_false in Ex as [b ->].
    apply (Hfiles _ _ Hx). }
  cbn [app] in E.
  assert (Hlen : Nat.eqb (List.length fns) 0 = false).
  { destruct (Hfiles _ _ H0) as [[fn0 Hp0] _].
    assert (H : In fn0 fns).
    { apply Hfns. exists (mkFileInfo n0 false). repeat split; [|exact Hp0].
      apply In_listing. now exists (RegularFile b0). }
    destruct fns; [destruct H | reflexivity]. }
  destruct (sort.insertionSort later fns) as [|first rest] eqn:S.
  - exfalso. pose proof (insertionSort_Permutation later fns) as P.
    rewrite S in P. apply Permutation_nil in P. subst fns. discriminate Hlen.
  - destruct (insertionSort_later_head _ _ _ S) as [Hin Hmax].
    apply Hfns in Hin as [fi [Hfi [D Hp]]].
    apply In_listing in Hfi as [x [Hx Ex]].
    rewrite D in Ex. symmetry in Ex. apply is_dir_false in Ex as [b ->].
    destruct (Hfiles _ _ Hx) as [_ [s [Hname Hu]]].
    exists (Name fi), b, first, s.
    repeat split; try assumption.
    + intros n' b' fn' Hin' Hp'. rewrite After_Before.
      apply (Hmax fn'). apply Hfns.
      exists (mkFileInfo n' false). repeat split; [|exact Hp'].
      apply In_listing. now exists (RegularFile b').
    + unfold FindLastSession, bind, readFlowFolder, lift. rewrite E, Hlen, S.
      assert (C : SessionFilename_String first = Name fi).
      { rewrite Hname in Hp |- *. apply String_parse_canonical. exact Hp. }
      rewrite C. unfold os_ReadFile. rewrite (In_lookup _ _ _ Hnd Hx).
      unfold rawFileToSession. rewrite Hu. reflexivity.
Qed.

(** C5, amended.  On the empty flow folder [FindLastSession] returns no
    session.  In a folder with distinct names in which every file has a
    name that decodes and that is the encoded name of the session its
    JSON content holds, and with at least one file, it returns the
    session held by a file whose decoded start time no other file's
    decoded start time is after, and that file is the only one it
    reads. *)
Theorem FindLastSession_latest (fs : FS) :
  (entries fs = [] -> FindLastSession fs = (Done None, fs)) /\
  (NoDup (map fst (entries fs)) ->
   (forall n b, In (n, RegularFile b) (entries fs) ->
      decodes n /\ exists s, n = getSessionFileName s /\ json_Unmarshal b = inr s) ->
   (exists n0 b0, In (n0, RegularFile b0) (entries fs)) ->
   exists n b fn s,
     In (n, RegularFile b) (entries fs) /\
     parseSessionFileName n = inr fn /\
     n = getSessionFileName s /\
     json_Unmarshal b = inr s /\
     (forall n' b' fn',
        In (n', RegularFile b') (entries fs) ->
        parseSessionFileName n' = inr fn' ->
        time.After (fn_StartTime fn') (fn_StartTime fn) = false) /\
     FindLastSession fs = (Done (Some s), mkFS (entries fs) (n :: reads fs))).
Proof.
  split.
  - intros E. unfold FindLastSession, bind, readFlowFolder, lift. rewrite E.
    reflexivity.
  - apply FindLastSession_found.
Qed.

(** *** Starting a session *)






(** *** The order of the listing

    [Readdir] promises no order.  In a state of the store the answer of
    [FindById] does not depend on it. *)

Lemma storeState_Permutation (l : list (string * node)) (rd : list string) (fs : FS) :
  Permutation (entries fs) l -> storeState fs -> storeState (mkFS l rd).
Proof.
  intros P [Hnd [Hfiles Huniq]]. unfold storeState. cbn [entries].
  assert (Hin : forall x, In x l -> In x (entries fs)).
  { intros x. apply Permutation_in. now symmetry. }
  split; [|split].
  - eapply Permutation_NoDup; [apply Permutation_map; exact P | exact Hnd].
  - intros n b H. apply Hfiles. now apply Hin.
  - intros n1 b1 n2 b2 id H1 H2. apply (Huniq n1 b1 n2 b2 id); now apply Hin.
Qed.

Lemma FindById_storeState (id n : string) (b : bytes) (s : Session) (fs : FS) :
  storeState fs ->
  In (n, RegularFile b) (entries fs) -> idOf n id -> json_Unmarshal b = inr s ->
  FindById id fs = (Done (Some s), mkFS (entries fs) (n :: reads fs)).
Proof.
  intros [Hnd [Hfiles Huniq]] Hin Hid Hu.
  unfold FindById, bind, readFlowFolder.
  apply (FindById_loop_found _ _ b s); [| |now apply In_lookup|exact Hu].
  - intros fi Hfi D. apply In_listing in Hfi as [x [Hx Ex]].
    rewrite D in Ex. symmetry in Ex. apply is_dir_false in Ex as [b' ->].
    destruct (Hfiles _ _ Hx) as [[fn Hp] _].
    exists fn. split; [exact Hp|]. intros E.
    apply (Huniq _ _ _ _ id Hx Hin); [now exists fn | exact Hid].
  - destruct Hid as [fn [Hp Hid]].
    exists (mkFileInfo n false), fn. split; [|now repeat split].
    apply In_listing. now exists (RegularFile b).
Qed.

Lemma FindById_any_order (id n : string) (b : bytes) (s : Session) (fs : FS)
    (l : list (string * node)) :
  storeState fs -> Permutation (entries fs) l ->
  In (n, RegularFile b) (entries fs) -> idOf n id -> json_Unmarshal b = inr s ->
  fst (FindById id (mkFS l (reads fs))) = fst (FindById id fs).
Proof.
  intros Hs P Hin Hid Hu.
  rewrite (FindById_storeState id n b s fs Hs Hin Hid Hu).
  rewrite (FindById_storeState id n b s (mkFS l (reads fs)));
    [reflexivity | now apply (storeState_Permutation l _ fs) | | exact Hid | exact Hu].
  cbn [entries]. now apply (Permutation_in _ P).
Qed.

End StoreFacts.

(** * The statements on the example data *)

Lemma emptyStore_storeState : storeState emptyStore.
Proof. apply emptyFS_storeState. Qed.

Lemma exampleStore_storeState : storeState exampleStore.
Proof.
  assert (H1 : storeState (snd (Save s10 emptyStore))).
  { apply (Save_storeState s10 emptyStore); try reflexivity.
    - apply emptyStore_storeState.
    - vm_compute. discriminate.
    - intros b [= <-]. reflexivity.
    - intros n b []. }
  assert (H2 : storeState (snd (Save s30 (snd (Save s10 emptyStore))))).
  { apply (Save_storeState s30 (snd (Save s10 emptyStore))); try reflexivity.
    - exact H1.
    - vm_compute. discriminate.
    - intros b [= <-]. reflexivity.
    - intros n b [[= <- _]|[]] [fn [Hp Hid]].
      vm_compute in Hp. injection Hp as <-. discriminate Hid. }
  assert (H3 : storeState (snd (Save s20 (snd (Save s30 (snd (Save s10 emptyStore))))))).
  { apply (Save_storeState s20 (snd (Save s30 (snd (Save s10 emptyStore)))));
      try reflexivity.
    - exact H2.
    - vm_compute. discriminate.
    - intros b [= <-]. reflexivity.
    - intros n b [[= <- _]|[[= <- _]|[]]] [fn [Hp Hid]];
        vm_compute in Hp; injection Hp as <-; discriminate Hid. }
  exact H3.
Qed.

Lemma parseSessionFileName_three_parts_witness :
  parseSessionFileName "a-Flow" = inl (errors_New "invalid session file name") /\
  parseSessionFileName "a-Flow-soon.json" = inl (NumError "ParseInt" "soon" ErrSyntax) /\
  parseSessionFileName "a-Flow-10.json" =
    inr (mkSessionFilename (time.Unix 10 0) "a" "Flow") /\
  parseSessionFileName
    (SessionFilename_String (mkSessionFilename (at_ 10 0) "id-1" "Flow")) =
    inl (errors_New "invalid session file name").
Proof.
  split; [|split; [|split]].
  - apply (proj1 (parseSessionFileName_three_parts "a-Flow")).
    vm_compute. discriminate.
  - apply (proj1 (proj2 (parseSessionFileName_three_parts "a-Flow-soon.json"))
             "a" "Flow" "soon.json"); reflexivity.
  - apply (proj1 (proj2 (proj2 (parseSessionFileName_three_parts "a-Flow-10.json")))
             "a" "Flow" "10.json"); reflexivity.
  - apply (proj2 (proj2 (proj2 (parseSessionFileName_three_parts EmptyString)))).
    reflexivity.
Defined.

Lemma Save_then_FindById_witness :
  FindById "1" (snd (Save sHalf emptyStore)) =
  (Done (Some sHalf),
   mkFS (entries (snd (Save sHalf emptyStore))) ["1-Flow-1713028800.json"]).
Proof.
  apply (Save_then_FindById sHalf emptyStore (snd (Save sHalf emptyStore))).
  - intros n b [].
  - reflexivity.
  - reflexivity.
  - vm_compute. discriminate.
  - intros b [= <-]. reflexivity.
  - intros n b [].
  - reflexivity.
Defined.

(** C1 as stated fails three times.  A session saved with half a
    second in its start time comes back with the half second, not with
    the time truncated to whole seconds; a session that starts before
    the epoch, whose id and project have no ['-'], cannot be looked up
    after it was saved, because the minus sign of its time makes a
    fourth part of the file name; and a session whose id has a path
    separator and no ['-'] is saved without error, here by a write
    that puts nothing into the flow folder, and is then not found
    under its id. *)
Lemma Save_then_FindById_truncation_fails :
  (strings.ContainsByte (Id sHalf) "-" = false /\
   fst (Save sHalf emptyStore) = Done None /\
   fst (FindById (Id sHalf) (snd (Save sHalf emptyStore))) = Done (Some sHalf) /\
   StartTime sHalf <> time.Unix (time.Time_Unix (StartTime sHalf)) 0) /\
  (strings.ContainsByte (Id sOld) "-" = false /\
   fst (Save sOld emptyStore) = Done None /\
   fst (FindById (Id sOld) (snd (Save sOld emptyStore))) =
   Fatal (FatalParse "1-Flow--5.json" (errors_New "invalid session file name"))) /\
  (strings.ContainsByte (Id sUp) "-" = false /\
   fst (Save sUp emptyStore) = Done None /\
   fst (FindById (Id sUp) (snd (Save sUp emptyStore))) = Done None).
Proof.
  repeat split; try reflexivity.
  vm_compute. discriminate.
Qed.

(** C2, at the failing input.  A session of project ["my project"] is
    saved under the sanitized project [myproject]; [filterByProject]
    compares the decoded component with the project as it is given, so
    asking for ["my project"] drops the entry, and [FindAllSessions]
    with that project returns nothing although the session is there. *)
Theorem filterByProject_unsanitized :
  getSessionFileName sSpaced = "1-myproject-10.json" /\
  filterByProject [mkFileInfo "1-myproject-10.json" false] "my project" = Done [] /\
  filterByProject [mkFileInfo "1-myproject-10.json" false] (stripNonAlnum "my project") =
    Done [mkFileInfo "1-myproject-10.json" false] /\
  fst (FindAllSessions (Some (mkSessionsFilters (mkTimeRange None None) "my project"))
         (snd (Save sSpaced emptyStore))) = Done [] /\
  fst (FindAllSessions None (snd (Save sSpaced emptyStore))) = Done [sSpaced].
Proof. repeat split. Qed.

Lemma exampleStore_names : NoDup (map fst (entries exampleStore)).
Proof. exact (proj1 exampleStore_storeState). Qed.

Lemma exampleStore_files (n : string) (b : @bytes exampleCodec) :
  In (n, RegularFile b) (entries exampleStore) ->
  decodes n /\ exists s, n = getSessionFileName s /\ json_Unmarshal b = inr s.
Proof. exact (proj1 (proj2 exampleStore_storeState) n b). Qed.



Lemma filterByTimeRange_exclusive_bounds_witness :
  filterByTimeRange (listing (entries exampleStore))
    (mkTimeRange (Some (at_ 10 0)) (Some (at_ 30 0))) =
  Done (filter (startsWithin (mkTimeRange (Some (at_ 10 0)) (Some (at_ 30 0))))
          (listing (entries exampleStore))).
Proof.
  apply (proj1 (filterByTimeRange_exclusive_bounds (listing (entries exampleStore))
                  (mkTimeRange (Some (at_ 10 0)) (Some (at_ 30 0))))).
  intros fi [<-|[<-|[<-|[]]]]; eexists; vm_compute; reflexivity.
Defined.

Lemma FindLastSession_latest_witness :
  FindLastSession emptyStore = (Done None, emptyStore) /\
  exists n b fn s,
    In (n, RegularFile b) (entries exampleStore) /\
    parseSessionFileName n = inr fn /\
    n = getSessionFileName s /\
    json_Unmarshal b = inr s /\
    (forall n' b' fn',
       In (n', RegularFile b') (entries exampleStore) ->
       parseSessionFileName n' = inr fn' ->
       time.After (fn_StartTime fn') (fn_StartTime fn) = false) /\
    FindLastSession exampleStore =
    (Done (Some s), mkFS (entries exampleStore) (n :: reads exampleStore)).
Proof.
  split.
  - apply (proj1 (FindLastSession_latest emptyStore)). reflexivity.
  - apply (proj2 (FindLastSession_latest exampleStore)).
    + apply exampleStore_names.
    + apply exampleStore_files.
    + exists "a-Flow-10.json", (Some s10). left. reflexivity.
Defined.

(** C5 as stated fails in a folder with a file: after [s10] and [sOld]
    were saved the folder has two files, the name of the first decodes,
    and [FindLastSession] returns no session but exits on the name of
    the second. *)
Lemma FindLastSession_undecodable_exits :
  withOld = snd (Save sOld (snd (Save s10 emptyStore))) /\
  fst (Save s10 emptyStore) = Done None /\
  fst (Save sOld (snd (Save s10 emptyStore))) = Done None /\
  parseSessionFileName "a-Flow-10.json" =
    inr (mkSessionFilename (time.Unix 10 0) "a" "Flow") /\
  fst (FindLastSession withOld) =
  Fatal (FatalParse "1-Flow--5.json" (errors_New "invalid session file name")).
Proof. repeat split. Qed.

Lemma FindAllSessions_ascending_witness :
  ascending [s10; s20; s30] /\
  exists l fs',
    FindAllSessions (Some (mkSessionsFilters (mkTimeRange None None) "Flow"))
      exampleStore = (Done l, fs').
Proof.
  split.
  - apply (proj1 (FindAllSessions_ascending None exampleStore) [s10; s20; s30]
             (mkFS (entries exampleStore)
                   ["b-Flow-20.json"; "c-Other-30.json"; "a-Flow-10.json"])).
    reflexivity.
  - apply (proj2 (FindAllSessions_ascending
                    (Some (mkSessionsFilters (mkTimeRange None None) "Flow"))
                    exampleStore)).
    + apply exampleStore_storeState.
    + intros n [H|[H|[H|[]]]]; discriminate H.
Defined.

Lemma exampleStore_decodes (n : string) (b : @bytes exampleCodec) :
  In (n, RegularFile b) (entries exampleStore) -> decodes n.
Proof. intros H. apply (exampleStore_files n b H). Qed.

Lemma Delete_by_id_witness :
  Delete "z" exampleStore = (Done (Some (NotFoundError "z")), exampleStore) /\
  exists l1 l2,
    entries exampleStore = l1 ++ ("c-Other-30.json", fileOf s30) :: l2 /\
    Delete "c" exampleStore = (Done None, mkFS (l1 ++ l2) (reads exampleStore)) /\
    FindById "c" (mkFS (l1 ++ l2) (reads exampleStore)) =
    (Done None, mkFS (l1 ++ l2) (reads exampleStore)).
Proof.
  split.
  - apply (proj1 (Delete_by_id "z" exampleStore exampleStore_decodes)).
    intros n b [[= <- _]|[[= <- _]|[[= <- _]|[]]]] [fn [Hp Hid]];
      vm_compute in Hp; injection Hp as <-; discriminate Hid.
  - apply (proj2 (Delete_by_id "c" exampleStore exampleStore_decodes)
             exampleStore_names
             (fun n1 b1 n2 b2 => proj2 (proj2 exampleStore_storeState) n1 b1 n2 b2 "c")
             "c-Other-30.json" (Some s30)).
    + right. left. reflexivity.
    + eexists. split; [vm_compute; reflexivity | reflexivity].
Defined.

(** C7 as stated fails twice.  After a session that starts before the
    epoch was saved, [Delete] by an id that no file carries does not
    return [NotFoundError] but exits on the stored name; and in a
    folder where two files carry the id ["a"], [Delete "a"] removes
    the first of them only, and [FindById "a"] then finds the session
    of the other. *)
Lemma Delete_needs_valid_folder :
  (fst (Save sOld emptyStore) = Done None /\
   fst (Delete "2" (snd (Save sOld emptyStore))) =
   Fatal (FatalParse "1-Flow--5.json" (errors_New "invalid session file name"))) /\
  (oneIdTwice = snd (Save sTwice (snd (Save s10 emptyStore))) /\
   Delete "a" oneIdTwice = (Done None, mkFS [("a-Other-20.json", fileOf sTwice)] []) /\
   fst (FindById "a" (snd (Delete "a" oneIdTwice))) = Done (Some sTwice)).
Proof. repeat split. Qed.

Lemma FindAllSessions_filters_before_reading_witness :
  exists l,
    FindAllSessions
      (Some (mkSessionsFilters (mkTimeRange (Some (at_ 15 0)) (Some (at_ 35 0))) "Flow"))
      exampleStore =
    (Done l, mkFS (entries exampleStore) ["b-Flow-20.json"]) /\
    Permutation l [s20] /\ ascending l /\
    mkFS (entries exampleStore) ["b-Flow-20.json"] =
    mkFS (entries exampleStore)
      (rev (map Name (filter notDir [mkFileInfo "b-Flow-20.json" false])) ++
       reads exampleStore).
Proof.
  assert (P : "Flow" <> EmptyString) by discriminate.
  assert (Z : IsZero (mkTimeRange (Some (at_ 15 0)) (Some (at_ 35 0))) = false)
    by reflexivity.
  exact (FindAllSessions_filters_before_reading "Flow"
           (mkTimeRange (Some (at_ 15 0)) (Some (at_ 35 0))) exampleStore P Z).
Defined.

Lemma FindAllSessions_subdirectory_witness :
  (exists f,
     FindAllSessions (Some (mkSessionsFilters (mkTimeRange None None) "Flow"))
       withSubdirectory = (Fatal f, withSubdirectory)) /\
  fst (FindAllSessions None withSubdirectory) = Done [s10; s20].
Proof.
  assert (E : parseSessionFileName "archive" =
              inl (errors_New "invalid session file name")) by reflexivity.
  assert (N : ~ In "archive"
                (map fst ([("a-Flow-10.json", fileOf s10)] ++
                          [("b-Flow-20.json", fileOf s20)]))).
  { intros [H|[H|[]]]; discriminate H. }
  destruct (FindAllSessions_subdirectory "archive" _
              [("a-Flow-10.json", fileOf s10)] [("b-Flow-20.json", fileOf s20)] [] E N)
    as [F [O _]].
  split.
  - apply (F (mkSessionsFilters (mkTimeRange None None) "Flow")).
    right. discriminate.
  - exact O.
Defined.

(** * Further properties of the store *)

(** ** The codec *)

Lemma ContainsByte_true (s : string) (c : ascii) :
  strings.ContainsByte s c = true <-> (1 <= strings.Count s c)%nat.
Proof.
  unfold strings.ContainsByte. rewrite negb_true_iff, Nat.eqb_neq. lia.
Qed.

(** X1.  What decoding makes of an encoded file name, for every
    session: when the id has no ['-'] and the start time is not before
    the epoch, the id, the sanitized project and the start time cut to
    the second; in every other case the invalid-file-name error. *)
Theorem getSessionFileName_decoding (s : Session) :
  parseSessionFileName (getSessionFileName s) =
  if negb (strings.ContainsByte (Id s) "-") && (0 <=? time.Time_Unix (StartTime s))
  then inr (mkSessionFilename (truncated (StartTime s)) (Id s)
              (stripNonAlnum (Project s)))
  else inl (errors_New "invalid session file name").
Proof.
  unfold getSessionFileName.
  destruct (strings.ContainsByte (Id s) "-") eqn:C; cbn [negb andb].
  - apply parse_parts. rewrite Split_length, String_Count. cbn [fn_Id].
    apply ContainsByte_true in C. cbn [strings.Count Ascii.eqb Bool.eqb]. lia.
  - destruct (0 <=? time.Time_Unix (StartTime s)) eqn:T.
    + apply Z.leb_le in T. apply ContainsByte_false in C.
      now rewrite parse_String.
    + apply Z.leb_gt in T. apply parse_parts.
      rewrite Split_length, String_Count. cbn [fn_StartTime].
      pose proof (FormatInt_negative _ T).
      cbn [strings.Count Ascii.eqb Bool.eqb]. lia.
Qed.

(** X2.  A decoded file name encodes to the file name it was decoded
    from, whenever that one was produced by the encoder; the decoded
    time has the same Unix seconds and no nanoseconds. *)
Theorem decoded_name_encodes_back (fn fn' : SessionFilename) :
  parseSessionFileName (SessionFilename_String fn) = inr fn' ->
  SessionFilename_String fn' = SessionFilename_String fn /\
  time.Time_Unix (fn_StartTime fn') = time.Time_Unix (fn_StartTime fn) /\
  time.nsec (fn_StartTime fn') = 0 /\
  fn_Id fn' = fn_Id fn.
Proof.
  intros H. split; [now apply String_parse_canonical|].
  destruct (String_decodes_inv _ _ H) as [Hid Ht].
  rewrite (parse_String fn Hid Ht) in H. injection H as <-.
  cbn [fn_StartTime fn_Id]. split; [|split; reflexivity].
  apply Time_Unix_Unix, Time_Unix_bounds.
Qed.

Lemma stripNonAlnum_allAlnum (p : string) : allAlnum (stripNonAlnum p) = true.
Proof.
  induction p as [|c p IH]; cbn [stripNonAlnum]; [reflexivity|].
  destruct (alnum c) eqn:E; [|exact IH]. cbn [allAlnum]. now rewrite E, IH.
Qed.

Lemma stripNonAlnum_fixed (p : string) : allAlnum p = true -> stripNonAlnum p = p.
Proof.
  induction p as [|c p IH]; cbn [stripNonAlnum allAlnum]; [reflexivity|].
  intros H. apply andb_true_iff in H as [Hc Hp]. now rewrite Hc, IH.
Qed.

(** X3.  The sanitized project consists of ASCII letters and digits
    only, sanitizing it again changes nothing, and it is the project
    itself exactly when the project has no other byte. *)
Theorem StrippedProject_sanitizes (fn : SessionFilename) :
  allAlnum (StrippedProject fn) = true /\
  stripNonAlnum (StrippedProject fn) = StrippedProject fn /\
  (StrippedProject fn = fn_Project fn <-> allAlnum (fn_Project fn) = true).
Proof.
  unfold StrippedProject. split; [apply stripNonAlnum_allAlnum|].
  split; [apply stripNonAlnum_idem|]. split.
  - intros <-. apply stripNonAlnum_allAlnum.
  - apply stripNonAlnum_fixed.
Qed.

(** ** The filters *)

Lemma firstUndecodable_None_inv (fileInfos : list FileInfo) :
  firstUndecodable fileInfos = None ->
  forall fi, In fi fileInfos -> decodes (Name fi).
Proof.
  induction fileInfos as [|x rest IH]; cbn [firstUndecodable]; [intros _ fi []|].
  destruct (parseSessionFileName (Name x)) as [e|fn] eqn:E; [discriminate|].
  intros H fi [<-|Hfi]; [now exists fn | now apply IH].
Qed.

Lemma firstUndecodable_Some_inv (fileInfos : list FileInfo) (f : fatal) :
  firstUndecodable fileInfos = Some f ->
  exists fi err, In fi fileInfos /\ parseSessionFileName (Name fi) = inl err /\
                 f = FatalParse (Name fi) err.
Proof.
  induction fileInfos as [|x rest IH]; cbn [firstUndecodable]; [discriminate|].
  destruct (parseSessionFileName (Name x)) as [e|fn] eqn:E.
  - intros [= <-]. exists x, e. split; [now left | now split].
  - intros H. destruct (IH H) as [fi [err [Hin Hrest]]].
    exists fi, err. split; [now right | exact Hrest].
Qed.

(** X4.  Both filters decode the name of every entry they are given,
    directories and entries they would not keep included: they exit
    exactly when some name does not decode, reporting such a name.
    When [filterByProject] returns, it returns, in listing order, the
    entries whose decoded project is the project asked for, byte for
    byte. *)
Theorem filters_decode_every_name (fileInfos : list FileInfo) (project : string)
    (r : TimeRange) :
  ((exists fi, In fi fileInfos /\ ~ decodes (Name fi)) <->
   exists f, filterByProject fileInfos project = Fatal f) /\
  ((exists fi, In fi fileInfos /\ ~ decodes (Name fi)) <->
   exists f, filterByTimeRange fileInfos r = Fatal f) /\
  (forall f, filterByProject fileInfos project = Fatal f ->
     exists fi err, In fi fileInfos /\ parseSessionFileName (Name fi) = inl err /\
                    f = FatalParse (Name fi) err) /\
  (forall kept, filterByProject fileInfos project = Done kept ->
     kept = filter (projectIs project) fileInfos).
Proof.
  rewrite filterByProject_eq, filterByTimeRange_eq.
  assert (Hbad : (exists fi, In fi fileInfos /\ ~ decodes (Name fi)) <->
                 exists f, firstUndecodable fileInfos = Some f).
  { split.
    - intros [fi [Hin Hn]].
      destruct (parseSessionFileName (Name fi)) as [err|fn] eqn:E.
      + now apply (firstUndecodable_Some _ fi err).
      + contradiction Hn. now exists fn.
    - intros [f Hf]. destruct (firstUndecodable_Some_inv _ _ Hf) as [fi [err [Hin [E _]]]].
      exists fi. split; [exact Hin|]. intros [fn Hfn]. congruence. }
  destruct (firstUndecodable fileInfos) as [f0|] eqn:U.
  - repeat split; try (intros _; now exists f0); try (intros _; now apply Hbad; exists f0).
    + intros f [= <-]. now apply firstUndecodable_Some_inv.
    + discriminate.
  - repeat split; try (intros H; apply Hbad in H; destruct H; discriminate);
      try (intros [f H]; discriminate); try discriminate.
    now intros kept [= <-].
Qed.

Lemma filter_idem {A} (p : A -> bool) (l : list A) :
  filter p (filter p l) = filter p l.
Proof.
  induction l as [|x l IH]; cbn [filter]; [reflexivity|].
  destruct (p x) eqn:P; cbn [filter]; rewrite ?P, IH; reflexivity.
Qed.

(** X5.  The two filters can be applied in either order with the same
    outcome, fatal exits included, and applying a filter a second time
    changes nothing. *)
Theorem filters_commute (fileInfos : list FileInfo) (project : string) (r : TimeRange) :
  outcome_bind (filterByProject fileInfos project)
               (fun kept => filterByTimeRange kept r) =
  outcome_bind (filterByTimeRange fileInfos r)
               (fun kept => filterByProject kept project) /\
  outcome_bind (filterByProject fileInfos project)
               (fun kept => filterByProject kept project) =
  filterByProject fileInfos project /\
  outcome_bind (filterByTimeRange fileInfos r)
               (fun kept => filterByTimeRange kept r) =
  filterByTimeRange fileInfos r.
Proof.
  rewrite !filterByProject_eq, !filterByTimeRange_eq.
  destruct (firstUndecodable fileInfos) eqn:U; [repeat split|].
  cbn [outcome_bind].
  rewrite !filterByProject_eq, !filterByTimeRange_eq.
  rewrite !firstUndecodable_filter by exact U.
  now rewrite filter_comm, !filter_idem.
Qed.

(** ** Saving and deleting *)

Section MoreStoreFacts.

Context {codec : JSON} {world : World}.

Lemma replace_same (name : string) (b : bytes) (l : list (string * node)) :
  lookup name l = Some (RegularFile b) -> replace name b l = l.
Proof.
  induction l as [|[m y] l IH]; cbn [replace lookup]; [reflexivity|].
  destruct (String.eqb m name); [now intros [= ->] | intros H; now rewrite IH].
Qed.

Lemma replace_lookup_other (name n : string) (b : bytes) (l : list (string * node)) :
  n <> name -> lookup n (replace name b l) = lookup n l.
Proof.
  intros Hn. induction l as [|[m y] l IH]; cbn [replace lookup]; [reflexivity|].
  destruct (String.eqb m name) eqn:E; cbn [lookup].
  - apply String.eqb_eq in E. subst m.
    destruct (String.eqb name n) eqn:E'; [|reflexivity].
    apply String.eqb_eq in E'. congruence.
  - now rewrite IH.
Qed.

Lemma lookup_app_other (name n : string) (v : node) (l : list (string * node)) :
  n <> name -> lookup n (l ++ [(name, v)]) = lookup n l.
Proof.
  intros Hn. induction l as [|[m y] l IH]; cbn [app lookup].
  - destruct (String.eqb name n) eqn:E; [|reflexivity].
    apply String.eqb_eq in E. congruence.
  - now rewrite IH.
Qed.

Lemma replace_length (name : string) (b : bytes) (l : list (string * node)) :
  List.length (replace name b l) = List.length l.
Proof.
  induction l as [|[m y] l IH]; cbn [replace]; [reflexivity|].
  destruct (String.eqb m name); cbn [List.length]; [reflexivity | now rewrite IH].
Qed.

(** X6.  [Save] never exits and never reads a file.  When the session
    cannot be marshaled it returns the marshaling error and the flow
    folder is as before.  For an id without path separator it touches
    no entry but the one named after the session; when a directory has
    that name it returns an error and the folder is as before; and
    afterwards the folder has the entries it had, or one more. *)
Theorem Save_frame (s : Session) (fs fs' : FS) (o : outcome (option error)) :
  Save s fs = (o, fs') ->
  (exists e, o = Done e) /\
  reads fs' = reads fs /\
  (forall e, json_MarshalIndent s = inl e -> o = Done (Some e) /\ fs' = fs) /\
  (strings.ContainsByte (Id s) "/" = false ->
   (forall n, n <> getSessionFileName s ->
      lookup n (entries fs') = lookup n (entries fs)) /\
   (lookup (getSessionFileName s) (entries fs) = Some Directory ->
      o <> Done None /\ fs' = fs) /\
   (List.length (entries fs) <= List.length (entries fs') <=
    S (List.length (entries fs)))%nat).
Proof.
  unfold Save, bind, os_WriteFile, ret.
  destruct (json_MarshalIndent s) as [e|b].
  { intros [= <- <-]. split; [eauto|]. split; [reflexivity|].
    split; [now intros e' [= ->]|]. intros _.
    split; [reflexivity|]. split; [|lia]. intros _. split; [discriminate|reflexivity]. }
  destruct (flat (getSessionFileName s)) eqn:F.
  2:{ destruct (os_WriteFile_elsewhere _ _ _) as [[err|] l]; intros [= <- <-];
        (split; [eauto|]; split; [reflexivity|]; split; [discriminate|];
         intros Hsep; rewrite (getSessionFileName_flat s Hsep) in F; discriminate F). }
  destruct (lookup (getSessionFileName s) (entries fs)) as [[old|]|] eqn:L;
    intros [= <- <-]; cbn [entries reads].
  - repeat split; eauto; try discriminate.
    + intros n Hn. now apply replace_lookup_other.
    + rewrite replace_length. lia.
    + rewrite replace_length. lia.
  - repeat split; eauto; try lia; discriminate.
  - repeat split; eauto; try discriminate.
    + intros n Hn. now apply lookup_app_other.
    + rewrite length_app. lia.
    + rewrite length_app. cbn [List.length]. lia.
Qed.

Lemma same_file_name (s s' : Session) :
  Id s' = Id s ->
  stripNonAlnum (Project s') = stripNonAlnum (Project s) ->
  time.Time_Unix (StartTime s') = time.Time_Unix (StartTime s) ->
  getSessionFileName s' = getSessionFileName s.
Proof.
  intros Hi Hp Ht. unfold getSessionFileName, SessionFilename_String, StrippedProject.
  cbn [fn_Id fn_Project fn_StartTime]. now rewrite Hi, Hp, Ht.
Qed.

(** X7.  Two sessions with the same id, without path separator, the
    same Unix second and projects that sanitize alike share one file:
    saving the second after the first rewrites that file with the
    second session and leaves the names of the folder and every other
    file as they were.  Saving the same session again changes
    nothing. *)
Theorem Save_overwrites (s s' : Session) (fs fs1 fs2 : FS) :
  strings.ContainsByte (Id s) "/" = false ->
  Id s' = Id s ->
  stripNonAlnum (Project s') = stripNonAlnum (Project s) ->
  time.Time_Unix (StartTime s') = time.Time_Unix (StartTime s) ->
  Save s fs = (Done None, fs1) ->
  Save s' fs1 = (Done None, fs2) ->
  map fst (entries fs2) = map fst (entries fs1) /\
  (exists b', json_MarshalIndent s' = inr b' /\
              lookup (getSessionFileName s) (entries fs2) = Some (RegularFile b')) /\
  (forall n, n <> getSessionFileName s ->
     lookup n (entries fs2) = lookup n (entries fs1)) /\
  Save s fs1 = (Done None, fs1).
Proof.
  intros Hsep Hi Hp Ht H1 H2. pose proof (same_file_name s s' Hi Hp Ht) as Hn.
  pose proof (getSessionFileName_flat s Hsep) as Hf.
  assert (Hf' : flat (getSessionFileName s') = true) by now rewrite Hn.
  destruct (Save_written _ _ _ Hf H1) as [b [Hm [_ [Hl _]]]].
  destruct (Save_written _ _ _ Hf' H2) as [b' [Hm' [_ [Hl' [_ Hshape]]]]].
  rewrite Hn in *.
  destruct Hshape as [[He _]|[_ Hnone]]; [|congruence].
  split; [rewrite He; apply replace_names|].
  split; [now exists b'|].
  split; [intros n Hne; rewrite He; now apply replace_lookup_other|].
  unfold Save, bind, os_WriteFile, ret. rewrite Hm.
  rewrite Hf, Hl, (replace_same _ _ _ Hl). now destruct fs1.
Qed.

Lemma In_lookup_some (n : string) (x : node) (l : list (string * node)) :
  In (n, x) l -> exists y, lookup n l = Some y.
Proof.
  induction l as [|[m z] l IH]; cbn [lookup]; [intros []|].
  intros [[= -> ->]|H].
  - rewrite String.eqb_refl. eauto.
  - destruct (String.eqb m n); eauto.
Qed.

Lemma remove_split (n : string) (y : node) (l : list (string * node)) :
  lookup n l = Some y ->
  exists l1 l2, l = l1 ++ (n, y) :: l2 /\ remove n l = l1 ++ l2.
Proof.
  induction l as [|[m z] l IH]; cbn [lookup remove]; [discriminate|].
  destruct (String.eqb m n) eqn:E.
  - apply String.eqb_eq in E. subst m. intros [= ->]. now exists [], l.
  - intros H. destruct (IH H) as [l1 [l2 [E1 E2]]].
    exists ((m, z) :: l1), l2. cbn [app]. now rewrite <- E1, E2.
Qed.

Lemma Delete_loop_effects (id : string) (fs : FS) (l : list (string * node)) :
  (forall e, In e l -> In e (entries fs)) ->
  forall o fs',
  Delete_loop (listing l) id fs = (o, fs') ->
  reads fs' = reads fs /\
  match o with
  | Done None =>
      exists l1 n x l2,
        entries fs = l1 ++ (n, x) :: l2 /\ entries fs' = l1 ++ l2 /\ idOf n id
  | Done (Some e) =>
      e = NotFoundError id /\ fs' = fs /\
      forall n b, In (n, RegularFile b) l ->
        exists fn, parseSessionFileName n = inr fn /\ fn_Id fn <> id
  | Fatal f =>
      fs' = fs /\
      exists n b err, In (n, RegularFile b) l /\
        parseSessionFileName n = inl err /\ f = FatalParse n err
  end.
Proof.
  induction l as [|[n x] l IH]; intros Hsub o fs'; cbn [listing map Delete_loop].
  - intros [= <- <-]. split; [reflexivity|]. repeat split. intros n b [].
  - cbn [fileInfoOf fst snd IsDir Name].
    assert (Hsub' : forall e, In e l -> In e (entries fs)) by (intros e He; apply Hsub; now right).
    destruct x as [b|]; cbn [is_dir].
    2:{ intros H. destruct (IH Hsub' _ _ H) as [Hr Ho]. split; [exact Hr|].
        destruct o as [[e|]|f]; [| exact Ho |].
        - destruct Ho as [He [Hfs Hall]]. repeat split; try assumption.
          intros m b' [[=]|Hin]. now apply Hall with b'.
        - destruct Ho as [Hfs [m [b' [err [Hin Hrest]]]]]. split; [exact Hfs|].
          exists m, b', err. split; [now right | exact Hrest]. }
    destruct (parseSessionFileName n) as [err|fn] eqn:P.
    { intros [= <- <-]. split; [reflexivity|]. split; [reflexivity|].
      exists n, b, err. split; [now left | now split]. }
    destruct (String.eqb (fn_Id fn) id) eqn:E.
    + apply String.eqb_eq in E. unfold bind, os_Remove.
      destruct (In_lookup_some n _ _ (Hsub _ (or_introl eq_refl))) as [y Hy].
      rewrite Hy. intros [= <- <-]. cbn [reads entries]. split; [reflexivity|].
      destruct (remove_split _ _ _ Hy) as [l1 [l2 [E1 E2]]].
      exists l1, n, y, l2. split; [exact E1|]. split; [exact E2|]. now exists fn.
    + apply String.eqb_neq in E.
      intros H. destruct (IH Hsub' _ _ H) as [Hr Ho]. split; [exact Hr|].
      destruct o as [[e|]|f]; [| exact Ho |].
      * destruct Ho as [He [Hfs Hall]]. repeat split; try assumption.
        intros m b' [[= <- <-]|Hin]; [now exists fn | now apply Hall with b'].
      * destruct Ho as [Hfs [m [b' [err [Hin Hrest]]]]]. split; [exact Hfs|].
        exists m, b', err. split; [now right | exact Hrest].
Qed.

(** X8.  [Delete] never reads a file.  When it returns no error, it
    has removed one entry, whose name decodes to the id, and nothing
    else.  The only error it returns is [NotFoundError id]; then the
    folder is as before and every file of it decodes to another id.
    When it exits the folder is as before, and an exit on a file name
    is on the name of a file of the folder that does not decode. *)
Theorem Delete_effects (id : string) (fs fs' : FS) (o : outcome (option error)) :
  Delete id fs = (o, fs') ->
  reads fs' = reads fs /\
  match o with
  | Done None =>
      exists l1 n x l2,
        entries fs = l1 ++ (n, x) :: l2 /\ entries fs' = l1 ++ l2 /\ idOf n id
  | Done (Some e) =>
      e = NotFoundError id /\ fs' = fs /\
      forall n b, In (n, RegularFile b) (entries fs) ->
        exists fn, parseSessionFileName n = inr fn /\ fn_Id fn <> id
  | Fatal f =>
      fs' = fs /\
      forall n err, f = FatalParse n err ->
        parseSessionFileName n = inl err /\
        exists b, In (n, RegularFile b) (entries fs)
  end.
Proof.
  unfold Delete, bind, readFlowFolder. intros H.
  destruct (Delete_loop_effects id fs (entries fs) (fun e He => He) _ _ H) as [Hr Ho].
  split; [exact Hr|].
  destruct o as [[e|]|f]; try exact Ho.
  destruct Ho as [Hfs [n [b [err [Hin [Hp ->]]]]]]. split; [exact Hfs|].
  intros n' err' [= <- <-]. split; [exact Hp | now exists b].
Qed.


Lemma storeState_entries (fs fs' : FS) :
  entries fs' = entries fs -> storeState fs -> storeState fs'.
Proof. unfold storeState. now intros ->. Qed.

Lemma readSessions_entries (fileInfos : list FileInfo) :
  forall sessions fs o fs',
  readSessions fileInfos sessions fs = (o, fs') -> entries fs' = entries fs.
Proof.
  induction fileInfos as [|fi rest IH]; intros sessions fs o fs'; cbn [readSessions].
  - now intros [= _ <-].
  - destruct (IsDir fi); [apply IH|].
    unfold bind, os_ReadFile, log_Fatal.
    destruct (lookup (Name fi) (entries fs)) as [[data|]|]; try (now intros [= _ <-]).
    destruct (rawFileToSession data); [now intros [= _ <-]|].
    intros H. now apply IH in H.
Qed.

Lemma FindAllSessions_entries (filters : option SessionsFilters) (fs fs' : FS) o :
  FindAllSessions filters fs = (o, fs') -> entries fs' = entries fs.
Proof.
  rewrite FindAllSessions_eq.
  destruct (selectEntries filters (listing (entries fs))); [|now intros [= _ <-]].
  destruct (readSessions a [] fs) as [[ss|f] fs1] eqn:R; intros [= _ <-];
    now apply readSessions_entries in R.
Qed.

Lemma FindById_loop_entries (id : string) (l : list FileInfo) :
  forall fs o fs', FindById_loop l id fs = (o, fs') -> entries fs' = entries fs.
Proof.
  induction l as [|fi l IH]; intros fs o fs'; cbn [FindById_loop];
    [now intros [= _ <-]|].
  destruct (IsDir fi); [apply IH|].
  destruct (parseSessionFileName (Name fi)) as [e|fn]; [now intros [= _ <-]|].
  destruct (String.eqb (fn_Id fn) id); [|apply IH].
  unfold bind, os_ReadFile, log_Fatal, ret.
  destruct (lookup (Name fi) (entries fs)) as [[data|]|]; try (now intros [= _ <-]).
  destruct (rawFileToSession data); now intros [= _ <-].
Qed.

(** X10.  The states of the store are kept by every operation of the
    repository: by [Save] of a session whose id has no ['-'] and no
    path separator, whose start is not before the epoch, whose JSON form decodes back to it
    and whose id no other file carries; by [Delete], whatever its
    outcome; and by the three queries, which leave the entries of the
    folder alone whatever they hold. *)
Theorem storeState_kept (fs fs' : FS) :
  (forall s,
     storeState fs ->
     strings.ContainsByte (Id s) "-" = false ->
     strings.ContainsByte (Id s) "/" = false ->
     0 <= time.Time_Unix (StartTime s) ->
     (forall b, json_MarshalIndent s = inr b -> json_Unmarshal b = inr s) ->
     (forall n b, In (n, RegularFile b) (entries fs) -> idOf n (Id s) ->
        n = getSessionFileName s) ->
     Save s fs = (Done None, fs') -> storeState fs') /\
  (forall id o, storeState fs -> Delete id fs = (o, fs') -> storeState fs') /\
  (forall id o, FindById id fs = (o, fs') -> entries fs' = entries fs) /\
  (forall o, FindLastSession fs = (o, fs') -> entries fs' = entries fs) /\
  (forall filters o, FindAllSessions filters fs = (o, fs') -> entries fs' = entries fs).
Proof.
  split; [intros s; apply Save_storeState|].
  split; [|split; [|split]].
  - intros id o Hs Hd. revert Hd. unfold Delete, bind, readFlowFolder. intros Hd.
    destruct (Delete_loop_effects id fs (entries fs) (fun e H => H) _ _ Hd) as [Hr Ho].
    destruct o as [[e|]|f].
    + destruct Ho as [_ [-> _]]. exact Hs.
    + destruct Ho as [l1 [n [x [l2 [E1 [E2 _]]]]]].
      apply (storeState_entries (mkFS (l1 ++ l2) (reads fs'))); [exact E2|].
      apply (remove_one_storeState l1 l2 (n, x) (reads fs)).
      apply (storeState_entries fs); [now rewrite E1 | exact Hs].
    + destruct Ho as [-> _]. exact Hs.
  - intros id o. unfold FindById, bind, readFlowFolder. apply FindById_loop_entries.
  - intros o. apply FindLastSession_entries.
  - intros filters o. apply FindAllSessions_entries.
Qed.

(** ** Looking up *)

Lemma FindById_loop_effects (id : string) (fs : FS) (l : list (string * node)) :
  forall o fs',
  FindById_loop (listing l) id fs = (o, fs') ->
  match o with
  | Done None =>
      fs' = fs /\
      forall n b, In (n, RegularFile b) l ->
        exists fn, parseSessionFileName n = inr fn /\ fn_Id fn <> id
  | Done (Some s) =>
      exists n b,
        In (n, RegularFile b) (entries fs) /\ idOf n id /\
        json_Unmarshal b = inr s /\ fs' = mkFS (entries fs) (n :: reads fs)
  | Fatal (FatalParse n err) =>
      fs' = fs /\ parseSessionFileName n = inl err /\
      exists b, In (n, RegularFile b) l
  | Fatal _ =>
      exists n, idOf n id /\ fs' = mkFS (entries fs) (n :: reads fs)
  end.
Proof.
  induction l as [|[n x] l IH]; intros o fs'; cbn [listing map FindById_loop].
  - intros [= <- <-]. split; [reflexivity | intros n b []].
  - cbn [fileInfoOf fst snd IsDir Name]. destruct x as [b|]; cbn [is_dir].
    2:{ intros H. apply IH in H. destruct o as [[s|]|f]; [exact H | |].
        - destruct H as [Hfs Hall]. split; [exact Hfs|].
          intros m b' [[=]|Hin]. now apply Hall with b'.
        - destruct f; try exact H.
          destruct H as [Hfs [Hp [b' Hin]]]. repeat split; try assumption.
          exists b'. now right. }
    destruct (parseSessionFileName n) as [err|fn] eqn:P.
    { intros [= <- <-]. repeat split; [exact P|]. exists b. now left. }
    destruct (String.eqb (fn_Id fn) id) eqn:E.
    + apply String.eqb_eq in E.
      assert (Hn : idOf n id) by now exists fn.
      unfold bind, os_ReadFile, log_Fatal, ret.
      destruct (lookup n (entries fs)) as [[data|]|] eqn:L.
      * unfold rawFileToSession.
        destruct (json_Unmarshal data) as [e|s] eqn:U; intros [= <- <-].
        -- now exists n.
        -- exists n, data. split; [now apply lookup_In | now repeat split].
      * intros [= <- <-]. now exists n.
      * intros [= <- <-]. now exists n.
    + apply String.eqb_neq in E. intros H. apply IH in H.
      destruct o as [[s|]|f]; [exact H | |].
      * destruct H as [Hfs Hall]. split; [exact Hfs|].
        intros m b' [[= <- <-]|Hin]; [now exists fn | now apply Hall with b'].
      * destruct f; try exact H.
        destruct H as [Hfs [Hp [b' Hin]]]. repeat split; try assumption.
        exists b'. now right.
Qed.


(** X12.  In a folder whose file names all decode, [FindById] returns
    no session, and reads nothing, exactly when no file name decodes
    to the id. *)
Theorem FindById_nil_iff (id : string) (fs : FS) :
  (forall n b, In (n, RegularFile b) (entries fs) -> decodes n) ->
  (FindById id fs = (Done None, fs) <->
   forall n b, In (n, RegularFile b) (entries fs) -> ~ idOf n id).
Proof.
  intros Hdec. unfold FindById, bind, readFlowFolder. split.
  - intros H. apply FindById_loop_effects in H. destruct H as [_ Hall].
    intros n b Hin [fn [Hp Hid]]. destruct (Hall _ _ Hin) as [fn' [Hp' Hne]].
    congruence.
  - intros Hnone. apply FindById_loop_absent. intros fi Hfi D.
    apply In_listing in Hfi as [x [Hx Ex]].
    rewrite D in Ex. symmetry in Ex. apply is_dir_false in Ex as [b ->].
    apply other_id; [now apply Hdec with b | now apply Hnone with b].
Qed.

(** ** One name that does not decode *)

Lemma decodeFileNames_fatal (l : list FileInfo) (fi : FileInfo) (err : error) :
  In fi l -> IsDir fi = false -> parseSessionFileName (Name fi) = inl err ->
  forall acc, exists f, decodeFileNames l acc = Fatal f.
Proof.
  induction l as [|x l IH]; intros Hin D P acc; [contradiction|].
  cbn [decodeFileNames]. destruct (IsDir x) eqn:Dx; cbn [negb].
  - destruct Hin as [->|Hin]; [congruence | now apply IH].
  - destruct (parseSessionFileName (Name x)) as [e|fn] eqn:Px; [eauto|].
    destruct Hin as [->|Hin]; [congruence | now apply IH].
Qed.

Lemma FindById_loop_fatal (id : string) (fs : FS) (l : list FileInfo)
    (fi : FileInfo) (err : error) :
  In fi l -> IsDir fi = false -> parseSessionFileName (Name fi) = inl err ->
  (forall x, In x l -> IsDir x = false -> ~ idOf (Name x) id) ->
  exists f, FindById_loop l id fs = (Fatal f, fs).
Proof.
  induction l as [|x l IH]; intros Hin D P Hnone; [contradiction|].
  cbn [FindById_loop].
  assert (Hnone' : forall y, In y l -> IsDir y = false -> ~ idOf (Name y) id)
    by (intros y Hy; apply Hnone; now right).
  destruct (IsDir x) eqn:Dx.
  - destruct Hin as [->|Hin]; [congruence | now apply IH].
  - destruct (parseSessionFileName (Name x)) as [e|fn] eqn:Px; [unfold log_Fatal; eauto|].
    destruct (String.eqb (fn_Id fn) id) eqn:E.
    + apply String.eqb_eq in E. exfalso.
      apply (Hnone x (or_introl eq_refl) Dx). now exists fn.
    + destruct Hin as [->|Hin]; [congruence | now apply IH].
Qed.

Lemma Delete_loop_fatal (id : string) (fs : FS) (l : list FileInfo)
    (fi : FileInfo) (err : error) :
  In fi l -> IsDir fi = false -> parseSessionFileName (Name fi) = inl err ->
  (forall x, In x l -> IsDir x = false -> ~ idOf (Name x) id) ->
  exists f, Delete_loop l id fs = (Fatal f, fs).
Proof.
  induction l as [|x l IH]; intros Hin D P Hnone; [contradiction|].
  cbn [Delete_loop].
  assert (Hnone' : forall y, In y l -> IsDir y = false -> ~ idOf (Name y) id)
    by (intros y Hy; apply Hnone; now right).
  destruct (IsDir x) eqn:Dx.
  - destruct Hin as [->|Hin]; [congruence | now apply IH].
  - destruct (parseSessionFileName (Name x)) as [e|fn] eqn:Px; [unfold log_Fatal; eauto|].
    destruct (String.eqb (fn_Id fn) id) eqn:E.
    + apply String.eqb_eq in E. exfalso.
      apply (Hnone x (or_introl eq_refl) Dx). now exists fn.
    + destruct Hin as [->|Hin]; [congruence | now apply IH].
Qed.

(** X13.  One file whose name does not decode stops the store:
    [FindLastSession] and every [FindAllSessions] with a project or a
    time range exit on it before reading anything, and so do [FindById]
    and [Delete] for every id that no file carries.  A successful
    [Save] leaves such a file in the folder when the id of the session
    has a ['-'], or its start is before the epoch, and its id has no
    path separator. *)
Theorem undecodable_name_is_fatal (fs : FS) :
  (forall n b err,
     In (n, RegularFile b) (entries fs) ->
     parseSessionFileName n = inl err ->
     (exists f, FindLastSession fs = (Fatal f, fs)) /\
     (forall filters,
        IsZero (Timerange filters) = false \/ filter_Project filters <> EmptyString ->
        exists f, FindAllSessions (Some filters) fs = (Fatal f, fs)) /\
     (forall id,
        (forall m c, In (m, RegularFile c) (entries fs) -> ~ idOf m id) ->
        (exists f, FindById id fs = (Fatal f, fs)) /\
        (exists f, Delete id fs = (Fatal f, fs)))) /\
  (forall s fs0,
     strings.ContainsByte (Id s) "-" = true \/ time.Time_Unix (StartTime s) < 0 ->
     strings.ContainsByte (Id s) "/" = false ->
     Save s fs0 = (Done None, fs) ->
     exists b,
       In (getSessionFileName s, RegularFile b) (entries fs) /\
       parseSessionFileName (getSessionFileName s) =
       inl (errors_New "invalid session file name")).
Proof.
  split.
  - intros n b err Hin P.
    assert (Hfi : In (mkFileInfo n false) (listing (entries fs))).
    { apply In_listing. now exists (RegularFile b). }
    split; [|split].
    + unfold FindLastSession, bind, readFlowFolder, lift.
      destruct (decodeFileNames_fatal (listing (entries fs)) (mkFileInfo n false) err)
        with (acc := @nil SessionFilename) as [f ->]; eauto.
    + intros filters Hf. rewrite FindAllSessions_eq.
      destruct (firstUndecodable_Some _ _ _ Hfi P) as [f Hfirst].
      exists f. unfold selectEntries. rewrite filterByTimeRange_eq, Hfirst.
      destruct (negb (IsZero (Timerange filters))) eqn:Z; [reflexivity|].
      cbn [outcome_bind]. rewrite filterByProject_eq, Hfirst.
      destruct (negb (String.eqb (filter_Project filters) EmptyString)) eqn:Q;
        [reflexivity|].
      apply negb_false_iff in Z, Q. apply String.eqb_eq in Q.
      destruct Hf; congruence.
    + intros id Hnone.
      assert (Hnone' : forall x, In x (listing (entries fs)) -> IsDir x = false ->
                ~ idOf (Name x) id).
      { intros x Hx D. apply In_listing in Hx as [y [Hy Ey]].
        rewrite D in Ey. symmetry in Ey. apply is_dir_false in Ey as [c ->].
        now apply Hnone with c. }
      split.
      * unfold FindById, bind, readFlowFolder.
        now apply (FindById_loop_fatal id fs _ (mkFileInfo n false) err).
      * unfold Delete, bind, readFlowFolder.
        now apply (Delete_loop_fatal id fs _ (mkFileInfo n false) err).
  - intros s fs0 Hbad Hsep Hsave.
    destruct (Save_written _ _ _ (getSessionFileName_flat s Hsep) Hsave)
      as [c [_ [_ [Hl _]]]].
    apply lookup_In in Hl. exists c. split; [exact Hl|].
    unfold getSessionFileName. apply parse_parts.
    rewrite Split_length, String_Count. cbn [fn_Id fn_StartTime].
    cbn [strings.Count Ascii.eqb Bool.eqb].
    destruct Hbad as [C|T].
    + apply ContainsByte_true in C. lia.
    + pose proof (FormatInt_negative _ T). lia.
Qed.

(** ** The most recent session, in any folder *)

Lemma decodeFileNames_Done (l : list FileInfo) : forall acc fns,
  decodeFileNames l acc = Done fns ->
  forall fi, In fi l -> IsDir fi = false -> decodes (Name fi).
Proof.
  induction l as [|x l IH]; intros acc fns H fi Hin D; [contradiction|].
  cbn [decodeFileNames] in H. destruct (IsDir x) eqn:Dx; cbn [negb] in H.
  - destruct Hin as [->|Hin]; [congruence | now apply (IH _ _ H)].
  - destruct (parseSessionFileName (Name x)) as [e|fn] eqn:Px; [discriminate|].
    destruct Hin as [->|Hin]; [now exists fn | now apply (IH _ _ H)].
Qed.

Lemma decodeFileNames_Fatal (l : list FileInfo) : forall acc f,
  decodeFileNames l acc = Fatal f ->
  exists fi err, In fi l /\ parseSessionFileName (Name fi) = inl err /\
                 f = FatalParse (Name fi) err.
Proof.
  induction l as [|x l IH]; intros acc f; cbn [decodeFileNames]; [discriminate|].
  destruct (IsDir x); cbn [negb].
  - intros H. destruct (IH _ _ H) as [fi [err [Hin Hrest]]].
    exists fi, err. split; [now right | exact Hrest].
  - destruct (parseSessionFileName (Name x)) as [e|fn] eqn:Px.
    + intros [= <-]. exists x, e. split; [now left | now split].
    + intros H. destruct (IH _ _ H) as [fi [err [Hin Hrest]]].
      exists fi, err. split; [now right | exact Hrest].
Qed.

(** X14.  [FindLastSession] in any folder.  It returns no session only
    when the folder has no file, and has then read nothing.  An exit
    on a file name is on a name that does not decode, before any read.
    A returned session, an exit on a read and an exit on invalid data
    come after it has picked a file name whose decoded start time no
    other decoded start time is after, and has read, once, not the
    file listed under that name but the file named by encoding the
    decoded name again: a returned session is the JSON content of that
    file, an exit on the read names that file, and an exit on invalid
    data names that file, whose content is no JSON session.  The index
    into the sorted names is never out of range. *)
Theorem FindLastSession_effects (fs fs' : FS) (o : outcome (option Session)) :
  FindLastSession fs = (o, fs') ->
  match o with
  | Done None =>
      fs' = fs /\ forall n b, ~ In (n, RegularFile b) (entries fs)
  | Fatal (FatalParse n err) =>
      fs' = fs /\ parseSessionFileName n = inl err
  | Fatal (Panic _) => False
  | Fatal (FatalList _) | Fatal (FatalDelete _ _) => True
  | _ =>
      exists n b fn,
        In (n, RegularFile b) (entries fs) /\
        parseSessionFileName n = inr fn /\
        (forall n' b' fn',
           In (n', RegularFile b') (entries fs) ->
           parseSessionFileName n' = inr fn' ->
           time.After (fn_StartTime fn') (fn_StartTime fn) = false) /\
        fs' = mkFS (entries fs) (SessionFilename_String fn :: reads fs) /\
        match o with
        | Done (Some s) =>
            exists b', lookup (SessionFilename_String fn) (entries fs) =
                       Some (RegularFile b') /\ json_Unmarshal b' = inr s
        | Fatal (FatalRead name _) =>
            name = SessionFilename_String fn
        | Fatal (FatalInvalidData name) =>
            name = SessionFilename_String fn /\
            exists b' e, lookup name (entries fs) = Some (RegularFile b') /\
                         json_Unmarshal b' = inl e
        | _ => True
        end
  end.
Proof.
  unfold FindLastSession, bind, readFlowFolder, lift.
  destruct (decodeFileNames (listing (entries fs)) []) as [fns|f] eqn:E.
  2:{ intros [= <- <-]. destruct (decodeFileNames_Fatal _ _ _ E) as [fi [err [_ [P ->]]]].
      now split. }
  pose proof (decodeFileNames_Done _ _ _ E) as Hdec.
  destruct (decodeFileNames_eq (listing (entries fs)) [] Hdec) as [fns' [E' Hfns]].
  rewrite E in E'. injection E' as ->. cbn [app] in *.
  assert (Hfile : forall fn, In fn fns' <->
            exists n b, In (n, RegularFile b) (entries fs) /\
                        parseSessionFileName n = inr fn).
  { intros fn. rewrite Hfns. split.
    - intros [fi [Hfi [D P]]]. apply In_listing in Hfi as [x [Hx Ex]].
      rewrite D in Ex. symmetry in Ex. apply is_dir_false in Ex as [b ->].
      now exists (Name fi), b.
    - intros [n [b [Hin P]]]. exists (mkFileInfo n false). repeat split; [|exact P].
      apply In_listing. now exists (RegularFile b). }
  destruct (Nat.eqb (List.length fns') 0) eqn:L.
  { intros [= <- <-]. split; [reflexivity|]. intros n b Hin.
    assert (Hd : decodes n).
    { apply (Hdec (mkFileInfo n false)); [|reflexivity].
      apply In_listing. now exists (RegularFile b). }
    destruct Hd as [fn P].
    assert (H : In fn fns') by (apply Hfile; now exists n, b).
    destruct fns'; [destruct H | discriminate L]. }
  destruct (sort.insertionSort later fns') as [|first rest] eqn:S.
  { pose proof (insertionSort_Permutation later fns') as Pm.
    rewrite S in Pm. apply Permutation_nil in Pm. subst fns'. discriminate L. }
  destruct (insertionSort_later_head _ _ _ S) as [Hin Hmax].
  apply Hfile in Hin as [n [b [Hin P]]].
  assert (Hlatest : forall n' b' fn',
            In (n', RegularFile b') (entries fs) ->
            parseSessionFileName n' = inr fn' ->
            time.After (fn_StartTime fn') (fn_StartTime first) = false).
  { intros n' b' fn' Hin' P'. rewrite After_Before. apply (Hmax fn').
    apply Hfile. now exists n', b'. }
  unfold os_ReadFile, log_Fatal, ret.
  destruct (lookup (SessionFilename_String first) (entries fs)) as [[data|]|] eqn:Lk.
  - unfold rawFileToSession.
    destruct (json_Unmarshal data) as [e|s] eqn:U; intros [= <- <-];
      exists n, b, first; repeat split; try assumption.
    + now exists data, e.
    + now exists data.
  - intros [= <- <-]. exists n, b, first. repeat split; assumption.
  - intros [= <- <-]. exists n, b, first. repeat split; assumption.
Qed.

(** ** All sessions *)

Lemma filter_all {A} (p : A -> bool) (l : list A) :
  (forall x, In x l -> p x = true) -> filter p l = l.
Proof.
  induction l as [|x l IH]; intros H; cbn [filter]; [reflexivity|].
  rewrite (H x (or_introl eq_refl)), IH; [reflexivity|].
  intros y Hy. apply H. now right.
Qed.

Lemma filter_andb {A} (p q : A -> bool) (l : list A) :
  filter q (filter p l) = filter (fun x => p x && q x) l.
Proof.
  induction l as [|x l IH]; cbn [filter]; [reflexivity|].
  destruct (p x) eqn:P; cbn [andb filter]; [|exact IH].
  destruct (q x); now rewrite IH.
Qed.

Lemma listing_filter (K : FileInfo -> bool) (l : list (string * node)) :
  filter K (listing l) = listing (filter (fun e => K (fileInfoOf e)) l).
Proof.
  induction l as [|e l IH]; cbn [listing map filter]; [reflexivity|].
  destruct (K (fileInfoOf e)); cbn [map]; fold (listing l); now rewrite IH.
Qed.

Lemma selectEntries_keeps (filters : option SessionsFilters) (fileInfos : list FileInfo) :
  firstUndecodable fileInfos = None ->
  selectEntries filters fileInfos = Done (filter (keeps filters) fileInfos).
Proof.
  intros U. unfold selectEntries, keeps.
  destruct filters as [f|]; [|now rewrite filter_all].
  assert (Hfirst : (if negb (IsZero (Timerange f))
                    then filterByTimeRange fileInfos (Timerange f)
                    else Done fileInfos) =
                   Done (filter (startsWithin (Timerange f)) fileInfos)).
  { destruct (IsZero (Timerange f)) eqn:Z; cbn [negb].
    - rewrite filter_all; [reflexivity|]. intros fi Hfi.
      destruct (firstUndecodable_None_inv _ U fi Hfi) as [fn P].
      unfold startsWithin, within. rewrite P.
      unfold IsZero in Z. destruct (Timerange f) as [[?|] [?|]]; cbn in *;
        congruence.
    - now rewrite filterByTimeRange_eq, U. }
  rewrite Hfirst. cbn [outcome_bind].
  destruct (String.eqb (filter_Project f) EmptyString) eqn:Q; cbn [negb orb].
  - f_equal. apply filter_ext. intros fi. now rewrite andb_true_r.
  - rewrite filterByProject_eq, firstUndecodable_filter by exact U.
    now rewrite filter_andb.
Qed.

Lemma keeps_selected (filters : option SessionsFilters) (s : Session) (d : bool) :
  decodes (getSessionFileName s) ->
  keeps filters (mkFileInfo (getSessionFileName s) d) = selected filters s.
Proof.
  intros [fn P]. unfold keeps, selected. destruct filters as [f|]; [|reflexivity].
  unfold getSessionFileName in P.
  destruct (String_decodes_inv _ _ P) as [Hid Ht].
  unfold startsWithin, projectIs. cbn [Name]. unfold getSessionFileName.
  rewrite (parse_String _ Hid Ht). reflexivity.
Qed.

Lemma readSessions_stored (l : list (string * node)) :
  forall sessions fs,
  (forall e, In e l -> lookup (fst e) (entries fs) = Some (snd e)) ->
  (forall n b, In (n, RegularFile b) l -> exists s, json_Unmarshal b = inr s) ->
  exists rd,
    readSessions (listing l) sessions fs =
    (Done (sessions ++ storedSessions l), mkFS (entries fs) rd).
Proof.
  induction l as [|[n x] l IH]; intros sessions fs Hl Hj;
    cbn [listing map readSessions storedSessions].
  - exists (reads fs). rewrite app_nil_r. now destruct fs.
  - cbn [fileInfoOf fst snd IsDir Name].
    assert (Hl' : forall e, In e l -> lookup (fst e) (entries fs) = Some (snd e))
      by (intros e He; apply Hl; now right).
    assert (Hj' : forall m b, In (m, RegularFile b) l -> exists s, json_Unmarshal b = inr s)
      by (intros m b Hm; apply (Hj m b); now right).
    destruct x as [b|]; cbn [is_dir]; [|now apply IH].
    destruct (Hj n b (or_introl eq_refl)) as [s Hs].
    pose proof (Hl (n, RegularFile b) (or_introl eq_refl)) as Hn. cbn [fst snd] in Hn.
    unfold bind, os_ReadFile, rawFileToSession. rewrite Hn, Hs.
    destruct (IH (sessions ++ [s]) (mkFS (entries fs) (n :: reads fs)) Hl' Hj')
      as [rd Hrd].
    exists rd. fold (listing l). rewrite Hrd. now rewrite <- app_assoc.
Qed.

Lemma storedSessions_filter (filters : option SessionsFilters) (l : list (string * node)) :
  (forall n, ~ In (n, Directory) l) ->
  (forall n b, In (n, RegularFile b) l ->
     decodes n /\ exists s, n = getSessionFileName s /\ json_Unmarshal b = inr s) ->
  storedSessions (filter (fun e => keeps filters (fileInfoOf e)) l) =
  filter (selected filters) (storedSessions l).
Proof.
  induction l as [|[n x] l IH]; intros Hd Hf; cbn [filter storedSessions]; [reflexivity|].
  assert (IH' : storedSessions (filter (fun e => keeps filters (fileInfoOf e)) l) =
                filter (selected filters) (storedSessions l)).
  { apply IH; [intros m Hm; apply (Hd m); now right|].
    intros m b Hm. apply Hf. now right. }
  destruct x as [b|]; [|exfalso; apply (Hd n); now left].
  destruct (Hf n b (or_introl eq_refl)) as [Hdec [s [-> Hs]]].
  unfold fileInfoOf at 1. cbn [fst snd is_dir].
  rewrite (keeps_selected filters s false Hdec), Hs. cbn [filter].
  destruct (selected filters s); cbn [storedSessions]; rewrite ?Hs, IH'; reflexivity.
Qed.

Lemma storeState_listing_decodes (fs : FS) :
  storeState fs -> (forall n, ~ In (n, Directory) (entries fs)) ->
  firstUndecodable (listing (entries fs)) = None.
Proof.
  intros [_ [Hfiles _]] Hnodir. apply firstUndecodable_None. intros fi Hfi.
  apply In_listing in Hfi as [[b|] [Hx _]]; [apply (Hfiles _ _ Hx)|].
  now apply Hnodir in Hx.
Qed.

Lemma FindAllSessions_storeState (filters : option SessionsFilters) (fs : FS) :
  storeState fs -> (forall n, ~ In (n, Directory) (entries fs)) ->
  exists rd,
    FindAllSessions filters fs =
    (Done (sort.insertionSort Sessions_Less
             (filter (selected filters) (storedSessions (entries fs)))),
     mkFS (entries fs) rd).
Proof.
  intros Hs Hnodir. pose proof Hs as [Hnd [Hfiles _]].
  rewrite FindAllSessions_eq.
  rewrite (selectEntries_keeps _ _ (storeState_listing_decodes fs Hs Hnodir)).
  rewrite listing_filter.
  destruct (readSessions_stored
              (filter (fun e => keeps filters (fileInfoOf e)) (entries fs)) [] fs)
    as [rd Hrd].
  - intros [n x] He. apply filter_In in He as [He _]. now apply In_lookup.
  - intros n b He. apply filter_In in He as [He _].
    destruct (Hfiles _ _ He) as [_ [s [_ Hu]]]. now exists s.
  - rewrite Hrd. cbn [app]. exists rd.
    now rewrite (storedSessions_filter filters (entries fs) Hnodir Hfiles).
Qed.

(** X15.  In a state of the store without subdirectories
    [FindAllSessions] returns, sorted by start time, exactly the stored
    sessions whose start time, cut to the whole second, lies strictly
    within the range and whose sanitized project is the project asked
    for, byte for byte (every session when neither is asked for).  So a
    session is compared at the second it started in, not at its
    instant. *)
Theorem FindAllSessions_selects (filters : option SessionsFilters) (fs : FS) :
  storeState fs -> (forall n, ~ In (n, Directory) (entries fs)) ->
  exists l fs',
    FindAllSessions filters fs = (Done l, fs') /\
    Permutation l (filter (selected filters) (storedSessions (entries fs))) /\
    ascending l.
Proof.
  intros Hs Hnodir.
  destruct (FindAllSessions_storeState filters fs Hs Hnodir) as [rd H].
  eexists. eexists. split; [exact H|]. split.
  - apply insertionSort_Permutation.
  - apply insertionSort_Sessions_ascending.
Qed.

Lemma FindAllSessions_plain (filters : option SessionsFilters) (fs : FS) :
  (forall f, filters = Some f ->
     IsZero (Timerange f) = true /\ filter_Project f = EmptyString) ->
  NoDup (map fst (entries fs)) ->
  (forall n b, In (n, RegularFile b) (entries fs) ->
     exists s, json_Unmarshal b = inr s) ->
  FindAllSessions filters fs =
  (Done (sort.insertionSort Sessions_Less (storedSessions (entries fs))),
   mkFS (entries fs)
        (rev (map Name (filter notDir (listing (entries fs)))) ++ reads fs)).
Proof.
  intros Hf Hnd Hj. rewrite FindAllSessions_eq.
  assert (Hsel : selectEntries filters (listing (entries fs)) =
                 Done (listing (entries fs))).
  { unfold selectEntries. destruct filters as [f|]; [|reflexivity].
    destruct (Hf f eq_refl) as [-> ->]. reflexivity. }
  rewrite Hsel.
  destruct (readSessions_stored (entries fs) [] fs) as [rd Hrd]; [|exact Hj|].
  { intros [n x] He. now apply In_lookup. }
  pose proof (readSessions_Done _ _ _ _ _ Hrd) as Hfs.
  rewrite Hrd. cbn [app]. now rewrite Hfs.
Qed.

(** X16.  Without filter, or with a filter that asks for no project and
    no bound, [FindAllSessions] decodes no file name: in any folder
    whose names are distinct and whose files hold JSON sessions,
    subdirectories and names of any form included, it reads every file
    once, in listing order, and returns the sessions held, rearranged
    into non-decreasing order of start time. *)
Theorem FindAllSessions_unfiltered (filters : option SessionsFilters) (fs : FS) :
  (forall f, filters = Some f ->
     IsZero (Timerange f) = true /\ filter_Project f = EmptyString) ->
  NoDup (map fst (entries fs)) ->
  (forall n b, In (n, RegularFile b) (entries fs) ->
     exists s, json_Unmarshal b = inr s) ->
  exists l,
    FindAllSessions filters fs =
    (Done l,
     mkFS (entries fs)
          (rev (map Name (filter notDir (listing (entries fs)))) ++ reads fs)) /\
    Permutation l (storedSessions (entries fs)) /\
    ascending l.
Proof.
  intros Hf Hnd Hj.
  exists (sort.insertionSort Sessions_Less (storedSessions (entries fs))).
  split; [now apply FindAllSessions_plain|].
  split; [apply insertionSort_Permutation | apply insertionSort_Sessions_ascending].
Qed.

(** ** Projects and tags *)

Lemma slices_Contains_In (l : list string) (v : string) :
  slices_Contains l v = true <-> In v l.
Proof.
  unfold slices_Contains. rewrite existsb_exists. split.
  - intros [x [Hx E]]. apply String.eqb_eq in E. now subst.
  - intros H. exists v. split; [exact H | apply String.eqb_refl].
Qed.

Lemma NoDup_snoc (l : list string) (v : string) :
  NoDup l -> ~ In v l -> NoDup (l ++ [v]).
Proof.
  intros Hl Hv. eapply Permutation_NoDup; [apply Permutation_cons_append|].
  now constructor.
Qed.




Lemma FindAllProjectTags_tags_spec (sessionTags : list string) : forall tags,
  NoDup tags ->
  NoDup (FindAllProjectTags_tags sessionTags tags) /\
  forall t, In t (FindAllProjectTags_tags sessionTags tags) <->
            In t tags \/ In t sessionTags.
Proof.
  induction sessionTags as [|x l IH]; intros acc Hacc; cbn [FindAllProjectTags_tags].
  - split; [exact Hacc|]. intros t. cbn [In]. tauto.
  - destruct (slices_Contains acc x) eqn:C.
    + apply slices_Contains_In in C. destruct (IH acc Hacc) as [Hnd Hin].
      split; [exact Hnd|]. intros t. rewrite Hin. cbn [In].
      split; [tauto|]. intros [H|[<-|H]]; tauto.
    + assert (Hn : ~ In x acc).
      { intros H. apply slices_Contains_In in H. congruence. }
      destruct (IH (acc ++ [x]) (NoDup_snoc _ _ Hacc Hn)) as [Hnd Hin].
      split; [exact Hnd|]. intros t. rewrite Hin, in_app_iff. cbn [In]. tauto.
Qed.

Lemma FindAllProjectTags_loop_spec (sessions : list Session) : forall tags,
  NoDup tags ->
  NoDup (FindAllProjectTags_loop sessions tags) /\
  forall t, In t (FindAllProjectTags_loop sessions tags) <->
            In t tags \/ exists s, In s sessions /\ In t (Tags s).
Proof.
  induction sessions as [|s l IH]; intros acc Hacc; cbn [FindAllProjectTags_loop].
  - split; [exact Hacc|]. intros t. split; [now left | intros [H|[s [[] _]]]; exact H].
  - destruct (FindAllProjectTags_tags_spec (Tags s) acc Hacc) as [Hnd Hin].
    destruct (IH _ Hnd) as [Hnd' Hin'].
    split; [exact Hnd'|]. intros t. rewrite Hin', Hin. split.
    + intros [[H|H]|[x [Hx Ht]]];
        [now left | right; exists s; split; [now left | exact H]
        | right; exists x; split; [now right | exact Ht]].
    + intros [H|[x [[->|Hx] Ht]]];
        [left; now left | left; now right | right; now exists x].
Qed.

(** X18.  In a state of the store without subdirectories,
    [FindAllProjectTags] returns each tag once, and its tags are those
    of the stored sessions whose sanitized project is the project asked
    for, byte for byte.  Asked for the empty project it returns the
    tags of every session; asked for a project with a byte that is no
    ASCII letter or digit it returns no tag, whatever is stored. *)
Theorem FindAllProjectTags_distinct (project : string) (fs : FS) :
  storeState fs -> (forall n, ~ In (n, Directory) (entries fs)) ->
  exists l fs',
    FindAllProjectTags project fs = (Done l, fs') /\
    NoDup l /\
    (forall t, In t l <->
       exists s, In s (storedSessions (entries fs)) /\
                 (project = EmptyString \/ stripNonAlnum (Project s) = project) /\
                 In t (Tags s)) /\
    (allAlnum project = false -> l = []).
Proof.
  intros Hs Hnodir. unfold FindAllProjectTags, bind, ret.
  destruct (FindAllSessions_storeState
              (Some (mkSessionsFilters (mkTimeRange None None) project)) fs Hs Hnodir)
    as [rd ->].
  set (found := sort.insertionSort Sessions_Less _).
  destruct (FindAllProjectTags_loop_spec found [] (NoDup_nil _)) as [Hn Hin].
  assert (Hfound : forall s, In s found <->
            In s (storedSessions (entries fs)) /\
            (project = EmptyString \/ stripNonAlnum (Project s) = project)).
  { intros s. unfold found. split.
    - intros H. apply (Permutation_in _ (insertionSort_Permutation Sessions_Less _)) in H.
      apply filter_In in H as [H Sel]. split; [exact H|].
      unfold selected, within in Sel. cbn in Sel.
      apply orb_true_iff in Sel as [E|E]; apply String.eqb_eq in E; [now left | now right].
    - intros [H Sel].
      apply (Permutation_in _ (Permutation_sym (insertionSort_Permutation Sessions_Less _))).
      apply filter_In. split; [exact H|].
      unfold selected, within. cbn. apply orb_true_iff.
      destruct Sel as [E|E]; [left | right]; now apply String.eqb_eq. }
  eexists. eexists. split; [reflexivity|]. split; [exact Hn|]. split.
  - intros t. rewrite Hin. split.
    + intros [[]|[s [Hs' Ht]]]. apply Hfound in Hs' as [Hs' Sel]. now exists s.
    + intros [s [Hs' [Sel Ht]]]. right. exists s. split; [|exact Ht].
      apply Hfound. now split.
  - intros Ha.
    destruct (FindAllProjectTags_loop found []) as [|t l] eqn:E; [reflexivity|].
    exfalso. assert (Ht : In t (t :: l)) by now left.
    apply Hin in Ht as [[]|[s [Hs' _]]].
    apply Hfound in Hs' as [_ [->|<-]]; [discriminate Ha|].
    now rewrite stripNonAlnum_allAlnum in Ha.
Qed.

(** ** The order of sessions *)

Lemma Before_trans (t u v : time.Time) :
  time.Before t u = true -> time.Before u v = true -> time.Before t v = true.
Proof.
  unfold time.Before. intros H1 H2.
  apply orb_true_iff in H1, H2. apply orb_true_iff.
  rewrite andb_true_iff, !Z.ltb_lt, Z.eqb_eq in *. lia.
Qed.

(** X19.  [Sessions.Less] is the strict order that [sort.Sort] needs:
    no session is less than itself, two sessions are never less than
    each other, less than is transitive and so is its absence; and two
    sessions of which neither is less than the other start at the same
    instant. *)
Theorem Sessions_Less_strict_order :
  (forall a, Sessions_Less a a = false) /\
  (forall a b, Sessions_Less a b = true -> Sessions_Less b a = false) /\
  (forall a b c, Sessions_Less a b = true -> Sessions_Less b c = true ->
                 Sessions_Less a c = true) /\
  (forall a b c, Sessions_Less a b = false -> Sessions_Less b c = false ->
                 Sessions_Less a c = false) /\
  (forall a b, Sessions_Less a b = false -> Sessions_Less b a = false ->
               StartTime a = StartTime b).
Proof.
  unfold Sessions_Less. repeat split.
  - intros a. apply Before_irrefl.
  - intros a b. apply Before_asym.
  - intros a b c. apply Before_trans.
  - intros a b c. apply Before_negtrans.
  - intros a b H1 H2. unfold time.Before in *.
    apply orb_false_iff in H1, H2.
    rewrite andb_false_iff, !Z.ltb_ge, Z.eqb_neq in *.
    destruct (StartTime a) as [sa na], (StartTime b) as [sb nb]. cbn in *.
    f_equal; lia.
Qed.

End MoreStoreFacts.

(** ** Contents that do not decode *)

Section Contents.

Context {codec : JSON}.

Lemma readSessions_outcome (l : list (string * node)) :
  forall sessions fs o fs',
  (forall e, In e l -> lookup (fst e) (entries fs) = Some (snd e)) ->
  readSessions (listing l) sessions fs = (o, fs') ->
  match o with
  | Done _ =>
      forall n b, In (n, RegularFile b) l -> exists s, json_Unmarshal b = inr s
  | Fatal (FatalInvalidData name) =>
      exists b e, In (name, RegularFile b) l /\ json_Unmarshal b = inl e
  | Fatal _ => False
  end.
Proof.
  induction l as [|[n x] l IH]; intros sessions fs o fs' Hl;
    cbn [listing map readSessions].
  - intros [= <- _]. intros n b [].
  - cbn [fileInfoOf fst snd IsDir Name].
    assert (Hl' : forall fs1 : FS, entries fs1 = entries fs ->
              forall e, In e l -> lookup (fst e) (entries fs1) = Some (snd e)).
    { intros fs1 E e He. rewrite E. apply Hl. now right. }
    destruct x as [b|]; cbn [is_dir].
    2:{ intros H. apply IH in H; [|now apply Hl'].
        destruct o as [ss|f].
        - intros m c [[=]|Hm]. now apply H with m.
        - destruct f; try exact H.
          destruct H as [c [e [Hin Hu]]]. exists c, e. split; [now right | exact Hu]. }
    pose proof (Hl (n, RegularFile b) (or_introl eq_refl)) as Hn. cbn [fst snd] in Hn.
    unfold bind, os_ReadFile, rawFileToSession, log_Fatal. rewrite Hn.
    destruct (json_Unmarshal b) as [e|s] eqn:U.
    + intros [= <- _]. exists b, e. split; [now left | exact U].
    + intros H. apply IH in H; [|now apply Hl'].
      destruct o as [ss|f].
      * intros m c [[= <- <-]|Hm]; [now exists s | now apply H with m].
      * destruct f; try exact H.
        destruct H as [c [e [Hin Hu]]]. exists c, e. split; [now right | exact Hu].
Qed.

(** X20.  Without filter, in a folder with distinct names: when some
    file holds bytes that are no JSON session, [FindAllSessions] exits;
    when it exits on invalid data, the file it names is a file of the
    folder whose bytes are no JSON session; and when it returns, every
    file of the folder holds a JSON session. *)
Theorem FindAllSessions_invalid_content (fs : FS) :
  NoDup (map fst (entries fs)) ->
  ((exists n b e, In (n, RegularFile b) (entries fs) /\ json_Unmarshal b = inl e) ->
   exists f fs', FindAllSessions None fs = (Fatal f, fs')) /\
  (forall name fs', FindAllSessions None fs = (Fatal (FatalInvalidData name), fs') ->
     exists b e, In (name, RegularFile b) (entries fs) /\ json_Unmarshal b = inl e) /\
  (forall l fs', FindAllSessions None fs = (Done l, fs') ->
     forall n b, In (n, RegularFile b) (entries fs) ->
       exists s, json_Unmarshal b = inr s).
Proof.
  intros Hnd. rewrite FindAllSessions_eq. cbn [selectEntries].
  assert (Hl : forall e, In e (entries fs) -> lookup (fst e) (entries fs) = Some (snd e)).
  { intros [n x] He. now apply In_lookup. }
  destruct (readSessions (listing (entries fs)) [] fs) as [[ss|f] fs1] eqn:R;
    pose proof (readSessions_outcome _ _ _ _ _ Hl R) as Ho; cbn beta iota in Ho.
  - split; [|split].
    + intros [n [b [e [Hin Hu]]]]. destruct (Ho _ _ Hin) as [s Hs]. congruence.
    + intros name fs' H. discriminate H.
    + intros l fs' _. exact Ho.
  - split; [|split].
    + intros _. eauto.
    + intros name fs' [= -> _]. exact Ho.
    + intros l fs' H. discriminate H.
Qed.

End Contents.

(** * The further properties on the example data *)

Lemma decoded_name_encodes_back_witness :
  SessionFilename_String (mkSessionFilename (time.Unix 10 0) "a" "myproject") =
  SessionFilename_String (mkSessionFilename (at_ 10 500) "a" "my project").
Proof.
  apply (decoded_name_encodes_back
           (mkSessionFilename (at_ 10 500) "a" "my project")
           (mkSessionFilename (time.Unix 10 0) "a" "myproject")).
  reflexivity.
Defined.

Lemma StrippedProject_sanitizes_witness :
  StrippedProject (mkSessionFilename (at_ 10 0) "a" "Flow") = "Flow".
Proof.
  apply (proj2 (proj2 (proj2 (StrippedProject_sanitizes
                                (mkSessionFilename (at_ 10 0) "a" "Flow"))))).
  reflexivity.
Defined.

Lemma filters_decode_every_name_witness :
  (exists f, filterByProject (listing (entries withSubdirectory)) "Other" = Fatal f) /\
  [mkFileInfo "c-Other-30.json" false] =
  filter (projectIs "Other") (listing (entries exampleStore)).
Proof.
  split.
  - apply (proj1 (proj1 (filters_decode_every_name
                           (listing (entries withSubdirectory)) "Other"
                           (mkTimeRange None None)))).
    exists (mkFileInfo "archive" true). split.
    + right. left. reflexivity.
    + intros [fn H]. discriminate H.
  - apply (proj2 (proj2 (proj2 (filters_decode_every_name
                                  (listing (entries exampleStore)) "Other"
                                  (mkTimeRange None None))))).
    reflexivity.
Defined.

Lemma Save_frame_witness :
  reads (snd (Save sHalf exampleStore)) = reads exampleStore /\
  (forall n, n <> getSessionFileName sHalf ->
     lookup n (entries (snd (Save sHalf exampleStore))) =
     lookup n (entries exampleStore)) /\
  (List.length (entries exampleStore) <=
   List.length (entries (snd (Save sHalf exampleStore))) <=
   S (List.length (entries exampleStore)))%nat.
Proof.
  destruct (Save_frame sHalf exampleStore (snd (Save sHalf exampleStore))
              (fst (Save sHalf exampleStore)) eq_refl)
    as [_ [Hr [_ Hflat]]].
  destruct (Hflat eq_refl) as [Hothers [_ Hlen]].
  split; [exact Hr|]. split; [exact Hothers | exact Hlen].
Defined.

Lemma Save_overwrites_witness :
  map fst (entries (snd (Save sHalfAgain (snd (Save sHalf emptyStore))))) =
  map fst (entries (snd (Save sHalf emptyStore))) /\
  Save sHalf (snd (Save sHalf emptyStore)) = (Done None, snd (Save sHalf emptyStore)).
Proof.
  destruct (Save_overwrites sHalf sHalfAgain emptyStore
              (snd (Save sHalf emptyStore))
              (snd (Save sHalfAgain (snd (Save sHalf emptyStore)))))
    as [Hn [_ [_ Hs]]]; try reflexivity.
  split; [exact Hn | exact Hs].
Defined.

Lemma Delete_effects_witness :
  reads (snd (Delete "c" exampleStore)) = reads exampleStore /\
  exists l1 n x l2,
    entries exampleStore = l1 ++ (n, x) :: l2 /\
    entries (snd (Delete "c" exampleStore)) = l1 ++ l2 /\ idOf n "c".
Proof.
  exact (Delete_effects "c" exampleStore (snd (Delete "c" exampleStore)) (Done None)
           eq_refl).
Defined.


Lemma storeState_kept_witness :
  storeState (snd (Delete "c" exampleStore)) /\
  entries (snd (FindLastSession exampleStore)) = entries exampleStore.
Proof.
  split.
  - apply (proj1 (proj2 (storeState_kept exampleStore (snd (Delete "c" exampleStore))))
             "c" (fst (Delete "c" exampleStore)));
      [apply exampleStore_storeState | reflexivity].
  - apply (proj1 (proj2 (proj2 (proj2
             (storeState_kept exampleStore (snd (FindLastSession exampleStore))))))
             (fst (FindLastSession exampleStore))).
    reflexivity.
Defined.


Lemma FindById_nil_iff_witness :
  FindById "z" exampleStore = (Done None, exampleStore).
Proof.
  apply (proj2 (FindById_nil_iff "z" exampleStore
                  (fun n b H => proj1 (proj1 (proj2 exampleStore_storeState) n b H)))).
  intros n b [[= <- _]|[[= <- _]|[[= <- _]|[]]]] [fn [Hp Hid]];
    vm_compute in Hp; injection Hp as <-; discriminate Hid.
Defined.

Lemma undecodable_name_is_fatal_witness :
  (exists f, FindLastSession (snd (Save sOld emptyStore)) =
             (Fatal f, snd (Save sOld emptyStore))) /\
  (exists f, FindById "2" (snd (Save sOld emptyStore)) =
             (Fatal f, snd (Save sOld emptyStore))) /\
  (exists b,
     In (getSessionFileName sOld, RegularFile b) (entries (snd (Save sOld emptyStore))) /\
     parseSessionFileName (getSessionFileName sOld) =
     inl (errors_New "invalid session file name")).
Proof.
  destruct (undecodable_name_is_fatal (snd (Save sOld emptyStore))) as [Hstop Hsave].
  destruct (Hstop "1-Flow--5.json" (Some sOld)
              (errors_New "invalid session file name"))
    as [Hlast [_ Hid]]; [left; reflexivity | reflexivity |].
  split; [exact Hlast|]. split.
  - apply (Hid "2"). intros m c [[= <- _]|[]] [fn [P _]]. discriminate P.
  - apply (Hsave sOld emptyStore).
    + right. vm_compute. reflexivity.
    + reflexivity.
    + reflexivity.
Defined.

Lemma FindLastSession_effects_witness :
  exists n b fn,
    In (n, RegularFile b) (entries unsuffixed) /\
    parseSessionFileName n = inr fn /\
    (forall n' b' fn',
       In (n', RegularFile b') (entries unsuffixed) ->
       parseSessionFileName n' = inr fn' ->
       time.After (fn_StartTime fn') (fn_StartTime fn) = false) /\
    snd (FindLastSession unsuffixed) =
    mkFS (entries unsuffixed) (SessionFilename_String fn :: reads unsuffixed) /\
    "a-Flow-10.json" = SessionFilename_String fn.
Proof.
  exact (FindLastSession_effects unsuffixed (snd (FindLastSession unsuffixed))
           (Fatal (FatalRead "a-Flow-10.json"
                     (PathError "open" "a-Flow-10.json" "no such file or directory")))
           eq_refl).
Defined.

Lemma FindAllSessions_selects_witness :
  exists l fs',
    FindAllSessions
      (Some (mkSessionsFilters (mkTimeRange None (Some (at_ 30 200000000))) EmptyString))
      exampleStore = (Done l, fs') /\
    Permutation l [s10; s30; s20] /\
    ascending l.
Proof.
  apply (FindAllSessions_selects
           (Some (mkSessionsFilters (mkTimeRange None (Some (at_ 30 200000000)))
                    EmptyString)) exampleStore).
  - apply exampleStore_storeState.
  - intros n [H|[H|[H|[]]]]; discriminate H.
Defined.

Lemma FindAllSessions_unfiltered_witness :
  exists l,
    FindAllSessions None mixedFolder =
    (Done l, mkFS (entries mixedFolder) ["a-Flow-10.json"; "notes.txt"]) /\
    Permutation l [s20; s10] /\
    ascending l.
Proof.
  apply (FindAllSessions_unfiltered None mixedFolder).
  - discriminate.
  - repeat constructor; cbn; intuition discriminate.
  - intros n b [[= _ <-]|[[=]|[[= _ <-]|[]]]]; eexists; reflexivity.
Defined.


Lemma FindAllProjectTags_distinct_witness :
  exists l fs',
    FindAllProjectTags "my project" (snd (Save sSpaced emptyStore)) = (Done l, fs') /\
    l = [].
Proof.
  destruct (FindAllProjectTags_distinct "my project" (snd (Save sSpaced emptyStore)))
    as [l [fs' [H [_ [_ Hempty]]]]].
  - apply (Save_storeState sSpaced emptyStore); try reflexivity.
    + apply emptyStore_storeState.
    + vm_compute. discriminate.
    + intros b [= <-]. reflexivity.
    + intros n b [].
  - intros n [H|[]]. discriminate H.
  - exists l, fs'. split; [exact H | now apply Hempty].
Defined.

Lemma Sessions_Less_strict_order_witness :
  Sessions_Less s20 s10 = false /\ Sessions_Less s10 s30 = true.
Proof.
  destruct Sessions_Less_strict_order as [_ [Hasym [Htrans _]]].
  split.
  - apply Hasym. reflexivity.
  - apply (Htrans s10 s20 s30); reflexivity.
Defined.

Lemma FindAllSessions_invalid_content_witness :
  exists f fs', FindAllSessions None corrupt = (Fatal f, fs').
Proof.
  apply (proj1 (FindAllSessions_invalid_content corrupt
                  ltac:(repeat constructor; cbn; intuition discriminate))).
  exists "b-Flow-20.json", None, (errors_New "unexpected end of JSON input").
  split; [right; left; reflexivity | reflexivity].
Defined.
